(** * Portgate: a shallow embedding of the routing, scanning, config and hub code

    Go strings are byte strings; they are modelled as Rocq [string]s, whose
    characters are [ascii] values, i.e. bytes.  Go [int] is modelled as [Z].
    Effects (TCP connects, HTTP GETs, the /proc file system) are explicit
    oracles passed as arguments. *)

From Stdlib Require Import Bool ZArith Lia List String Ascii DecimalString Sorted.
From stdpp Require Import base gmap sets list.
Import ListNotations.
Open Scope string_scope.

(* ===================================================================== *)
(** ** Go string helpers (package strings, package net) *)

Module GoStr.

(** [strings.IndexByte]: index of the first occurrence of [c]. *)
Fixpoint index_byte (s : string) (c : ascii) : option nat :=
  match s with
  | EmptyString => None
  | String d s' =>
      if Ascii.eqb d c then Some 0
      else match index_byte s' c with Some i => Some (S i) | None => None end
  end.

(** [strings.LastIndexByte]: index of the last occurrence of [c]. *)
Fixpoint last_index_byte (s : string) (c : ascii) : option nat :=
  match s with
  | EmptyString => None
  | String d s' =>
      match last_index_byte s' c with
      | Some i => Some (S i)
      | None => if Ascii.eqb d c then Some 0 else None
      end
  end.

Definition contains_byte (s : string) (c : ascii) : bool :=
  match index_byte s c with Some _ => true | None => false end.

(** [s[i:]] *)
Definition slice_from (s : string) (i : nat) : string :=
  substring i (String.length s - i) s.

(** [s[:i]] *)
Definition slice_to (s : string) (i : nat) : string := substring 0 i s.

(** [s[i]] for an in-range [i]. *)
Definition byte_at (s : string) (i : nat) : option ascii := String.get i s.

(** [strings.HasSuffix]:
    [len(s) >= len(suffix) && s[len(s)-len(suffix):] == suffix]. *)
Definition HasSuffix (s suffix : string) : bool :=
  (String.length suffix <=? String.length s)%nat &&
  String.eqb (substring (String.length s - String.length suffix)
                        (String.length suffix) s) suffix.

(** [strings.TrimSuffix]. *)
Definition TrimSuffix (s suffix : string) : string :=
  if HasSuffix s suffix
  then substring 0 (String.length s - String.length suffix) s
  else s.

(** [net.SplitHostPort] (Go net/ipsock.go), [None] for every error. *)
Definition SplitHostPort (hostport : string) : option (string * string) :=
  match last_index_byte hostport ":" with
  | None => None
  | Some i =>
      let bracket :=
        if match byte_at hostport 0 with
           | Some c => Ascii.eqb c "["
           | None => false
           end
        then
            match index_byte hostport "]" with
            | None => None
            | Some e =>
                if Nat.eqb (e + 1) (String.length hostport) then None
                else if Nat.eqb (e + 1) i
                then Some (substring 1 (e - 1) hostport, 1%nat, (e + 1)%nat)
                else None
            end
        else
            let host := slice_to hostport i in
            if contains_byte host ":" then None else Some (host, 0%nat, 0%nat)
      in
      match bracket with
      | None => None
      | Some (host, j, k) =>
          if contains_byte (slice_from hostport j) "[" then None
          else if contains_byte (slice_from hostport k) "]" then None
          else Some (host, slice_from hostport (i + 1))
      end
  end.

(** ASCII case folding of one byte, as in the fast path of
    [strings.EqualFold]. *)
Definition lower_ascii (c : ascii) : ascii :=
  let n := nat_of_ascii c in
  if ((65 <=? n) && (n <=? 90))%nat then ascii_of_nat (n + 32) else c.

Definition byte_list (s : string) : list ascii := list_ascii_of_string s.

(** [strings.EqualFold s t] for an all-ASCII [t] (every call site of the
    program compares against an ASCII literal).  Go decodes [s] as UTF-8
    and compares rune by rune with Unicode simple case folding; the only
    non-ASCII runes whose fold orbit meets an ASCII letter are U+212A
    KELVIN SIGN (orbit k, K) and U+017F LATIN SMALL LETTER LONG S
    (orbit s, S), encoded E2 84 AA and C5 BF.  Every other non-ASCII byte
    starts a rune (or U+FFFD) that matches no ASCII byte. *)
Fixpoint equal_fold_ascii (s t : list ascii) : bool :=
  match s, t with
  | [], [] => true
  | c :: s', d :: t' =>
      if (nat_of_ascii c <? 128)%nat then
        Ascii.eqb (lower_ascii c) (lower_ascii d) && equal_fold_ascii s' t'
      else
        match s' with
        | c2 :: c3 :: s'' =>
            if Ascii.eqb c "226"%char && Ascii.eqb c2 "132"%char
               && Ascii.eqb c3 "170"%char && Ascii.eqb (lower_ascii d) "k"%char
            then equal_fold_ascii s'' t'
            else if Ascii.eqb c "197"%char && Ascii.eqb c2 "191"%char
                    && Ascii.eqb (lower_ascii d) "s"%char
            then equal_fold_ascii (c3 :: s'') t'
            else false
        | [c2] =>
            if Ascii.eqb c "197"%char && Ascii.eqb c2 "191"%char
               && Ascii.eqb (lower_ascii d) "s"%char
            then equal_fold_ascii [] t'
            else false
        | [] => false
        end
  | _, _ => false
  end.

Definition EqualFold (s t : string) : bool :=
  equal_fold_ascii (byte_list s) (byte_list t).

End GoStr.

Import GoStr.

(* ===================================================================== *)
(** ** Data model (types.go, part_003) *)

Record DomainMapping := {
  dm_Domain : string;
  dm_TargetPort : Z;
  dm_CreatedAt : Z;
  dm_System : bool
}.

(** [http.Header]: canonical key to list of values. *)
Definition Header := list (string * list string).

(** [Header.Get]: first value of the key, or "". *)
Fixpoint header_get (h : Header) (k : string) : string :=
  match h with
  | [] => ""
  | (k', vs) :: h' =>
      if String.eqb k k' then match vs with v :: _ => v | [] => "" end
      else header_get h' k
  end.

Record Request := {
  req_Host : string;
  req_Header : Header
}.

(* ===================================================================== *)
(** ** ProxyRouter (part_000: ProxyHandler, extractSubdomain,
       isWebSocketUpgrade) and ConfigStore.LookupPort (config.go) *)

Module Proxy.

(** [ConfigStore.LookupPort]: target port of the first mapping with that
    domain, or 0. *)
Fixpoint LookupPort (ms : list DomainMapping) (domain : string) : Z :=
  match ms with
  | [] => 0%Z
  | m :: ms' =>
      if String.eqb (dm_Domain m) domain then dm_TargetPort m
      else LookupPort ms' domain
  end.

Definition extractSubdomain (host suffix : string) : string :=
  let dotSuffix := "." ++ suffix in
  if negb (HasSuffix host dotSuffix) then ""
  else
    let sub := TrimSuffix host dotSuffix in
    if String.eqb sub "" then "" else sub.

Definition isWebSocketUpgrade (r : Request) : bool :=
  EqualFold (header_get (req_Header r) "Connection") "upgrade" &&
  EqualFold (header_get (req_Header r) "Upgrade") "websocket".

(** What the handler does with one request. *)
Inductive ProxyAction :=
  | ProxyToDashboard                (* proxyToDashboard *)
  | RedirectToDashboard             (* http.Redirect, 307 *)
  | WebSocketTunnel (target : Z)    (* handleWebSocket to 127.0.0.1:target *)
  | ReverseProxy (target : Z).      (* httputil.ReverseProxy to target *)

(** The host after "Strip port if present". *)
Definition strip_host_port (host : string) : string :=
  match SplitHostPort host with
  | Some (h, _) => h
  | None => host
  end.

(** [ProxyHandler]'s request function; [suffix] is
    [hub.config.DomainSuffix()] and [ms] the mappings read by
    [hub.config.LookupPort]. *)
Definition ProxyHandler (suffix : string) (ms : list DomainMapping)
    (r : Request) : ProxyAction :=
  let host := strip_host_port (req_Host r) in
  let subdomain := extractSubdomain host suffix in
  if String.eqb subdomain "" || String.eqb subdomain "portgate"
  then ProxyToDashboard
  else
    let port := LookupPort ms subdomain in
    if Z.eqb port 0 then RedirectToDashboard
    else if isWebSocketUpgrade r then WebSocketTunnel port
    else ReverseProxy port.

(** The decision after the dashboard check, for a looked-up subdomain. *)
Definition mapped_action (ms : list DomainMapping) (r : Request)
    (sub : string) : ProxyAction :=
  let port := LookupPort ms sub in
  if Z.eqb port 0 then RedirectToDashboard
  else if isWebSocketUpgrade r then WebSocketTunnel port
  else ReverseProxy port.

(** The routing rule in the words of the specification: an optional
    [:port] suffix (a colon followed by decimal digits) is stripped; a
    host [X.<suffix>] with non-empty [X] other than "portgate" is looked
    up as subdomain [X]; every other host goes to the dashboard. *)
Definition is_digit (c : ascii) : bool :=
  let n := nat_of_ascii c in ((48 <=? n) && (n <=? 57))%nat.

Definition spec_strip_port (host : string) : string :=
  match last_index_byte host ":" with
  | Some i =>
      let p := slice_from host (i + 1) in
      if negb (String.eqb p "") && forallb is_digit (byte_list p)
      then slice_to host i else host
  | None => host
  end.

Definition spec_route (suffix : string) (ms : list DomainMapping)
    (r : Request) : ProxyAction :=
  let h := spec_strip_port (req_Host r) in
  if HasSuffix h ("." ++ suffix) then
    let x := TrimSuffix h ("." ++ suffix) in
    if String.eqb x "" || String.eqb x "portgate" then ProxyToDashboard
    else mapped_action ms r x
  else ProxyToDashboard.

(** A [Connection] header read the way the specification describes: its
    comma-separated token set contains "upgrade". *)
Fixpoint split_commas_aux (cur : string) (s : list ascii) : list string :=
  match s with
  | [] => [cur]
  | c :: s' =>
      if Ascii.eqb c "," then cur :: split_commas_aux "" s'
      else split_commas_aux (cur ++ String c "") s'
  end.

Fixpoint trim_sp (s : list ascii) : list ascii :=
  match s with
  | c :: s' => if Ascii.eqb c " " || Ascii.eqb c "009" then trim_sp s' else s
  | [] => []
  end.

Definition token_trim (s : string) : string :=
  string_of_list_ascii (rev (trim_sp (rev (trim_sp (byte_list s))))).

Definition spec_isWebSocketUpgrade (r : Request) : bool :=
  existsb (fun tok => EqualFold (token_trim tok) "upgrade")
          (split_commas_aux "" (byte_list (header_get (req_Header r) "Connection")))
  && EqualFold (header_get (req_Header r) "Upgrade") "websocket".

End Proxy.

(* ===================================================================== *)
(** ** [strings.TrimSpace] *)

Module GoTrim.

(** UTF-8 encodings of the runes for which [unicode.IsSpace] holds:
    the ASCII spaces \t \n \v \f \r and ' ', then U+0085, U+00A0, U+1680,
    U+2000 to U+200A, U+2028, U+2029, U+202F, U+205F and U+3000. *)
Definition b (n : nat) : ascii := ascii_of_nat n.

Definition space_seqs : list (list ascii) :=
  [[b 9]; [b 10]; [b 11]; [b 12]; [b 13]; [b 32];
   [b 194; b 133]; [b 194; b 160]; [b 225; b 154; b 128]] ++
  map (fun k => [b 226; b 128; b (128 + k)]) (seq 0 11) ++
  [[b 226; b 128; b 168]; [b 226; b 128; b 169]; [b 226; b 128; b 175];
   [b 226; b 129; b 159]; [b 227; b 128; b 128]].

Fixpoint strip_prefix (p s : list ascii) : option (list ascii) :=
  match p, s with
  | [], _ => Some s
  | c :: p', d :: s' => if Ascii.eqb c d then strip_prefix p' s' else None
  | _ :: _, [] => None
  end.

Fixpoint strip_one (seqs : list (list ascii)) (s : list ascii)
    : option (list ascii) :=
  match seqs with
  | [] => None
  | p :: seqs' =>
      match strip_prefix p s with
      | Some s' => Some s'
      | None => strip_one seqs' s
      end
  end.

(** Drop leading runes found in [seqs] (each step drops at least one
    byte, so [length s] steps suffice). *)
Fixpoint trim_left (fuel : nat) (seqs : list (list ascii)) (s : list ascii)
    : list ascii :=
  match fuel with
  | O => s
  | S fuel' =>
      match strip_one seqs s with
      | Some s' => trim_left fuel' seqs s'
      | None => s
      end
  end.

(** [strings.TrimSpace]: leading and trailing white-space runes removed.
    The trailing side works on the reversed bytes with the reversed
    encodings, which matches [utf8.DecodeLastRuneInString]. *)
Definition TrimSpace (s : string) : string :=
  let l := trim_left (List.length (byte_list s)) space_seqs (byte_list s) in
  let r := trim_left (List.length l) (map (@rev ascii) space_seqs) (rev l) in
  string_of_list_ascii (rev r).

End GoTrim.

Import GoTrim.

(* ===================================================================== *)
(** ** ConfigStore (config.go) and the dashboard API (README.md) *)

Record ScanRange := { sr_Start : Z; sr_End : Z }.

Record ManualPort := { mp_Port : Z; mp_Name : string; mp_Path : string }.

Record Config := {
  cfg_Mappings : list DomainMapping;
  cfg_ScanIntervalSec : Z;
  cfg_ScanRanges : list ScanRange;
  cfg_ManualPorts : list ManualPort
}.

Module Store.

Definition set_Mappings (c : Config) (ms : list DomainMapping) : Config :=
  {| cfg_Mappings := ms; cfg_ScanIntervalSec := cfg_ScanIntervalSec c;
     cfg_ScanRanges := cfg_ScanRanges c; cfg_ManualPorts := cfg_ManualPorts c |}.

Definition set_ScanRanges (c : Config) (rs : list ScanRange) : Config :=
  {| cfg_Mappings := cfg_Mappings c; cfg_ScanIntervalSec := cfg_ScanIntervalSec c;
     cfg_ScanRanges := rs; cfg_ManualPorts := cfg_ManualPorts c |}.

Definition set_ManualPorts (c : Config) (mps : list ManualPort) : Config :=
  {| cfg_Mappings := cfg_Mappings c; cfg_ScanIntervalSec := cfg_ScanIntervalSec c;
     cfg_ScanRanges := cfg_ScanRanges c; cfg_ManualPorts := mps |}.

Definition DefaultScanRanges : list ScanRange :=
  [{| sr_Start := 3000; sr_End := 3999 |}; {| sr_Start := 4000; sr_End := 4099 |};
   {| sr_Start := 5000; sr_End := 5999 |}; {| sr_Start := 8000; sr_End := 8999 |}].

(** [ConfigStore.AddMapping], in-memory part: the in-place filter of
    [cs.cfg.Mappings[:0]] followed by [append(filtered, m)].  The
    following [cs.Save()] only writes the file. *)
Definition AddMapping (c : Config) (m : DomainMapping) : Config :=
  set_Mappings c
    (List.filter (fun e => negb (String.eqb (dm_Domain e) (dm_Domain m)))
                 (cfg_Mappings c) ++ [m]).

(** [ConfigStore.ScanRanges]. *)
Definition ScanRanges (c : Config) : list ScanRange :=
  match cfg_ScanRanges c with [] => DefaultScanRanges | rs => rs end.

Definition sr_eqb (a b : ScanRange) : bool :=
  Z.eqb (sr_Start a) (sr_Start b) && Z.eqb (sr_End a) (sr_End b).

(** [ConfigStore.AddScanRange], in-memory part; the boolean tells whether
    [cs.Save()] is reached ([false]: duplicate, [return nil]). *)
Definition AddScanRange (c : Config) (sr : ScanRange) : Config * bool :=
  let rs := match cfg_ScanRanges c with [] => DefaultScanRanges | rs => rs end in
  if existsb (fun e => sr_eqb e sr) rs
  then (set_ScanRanges c rs, false)
  else (set_ScanRanges c (rs ++ [sr]), true).

(** [ConfigStore.ManualPorts] and [ConfigStore.AddManualPort]. *)
Definition ManualPorts (c : Config) : list ManualPort := cfg_ManualPorts c.

Definition AddManualPort (c : Config) (mp : ManualPort) : Config :=
  set_ManualPorts c
    (List.filter (fun e => negb (Z.eqb (mp_Port e) (mp_Port mp)))
                 (cfg_ManualPorts c) ++ [mp]).

(** Request bodies after [json.NewDecoder(r.Body).Decode]: [None] is a
    decode error. *)
Record MappingRequest := { mr_Domain : string; mr_Port : Z }.
Record PortRequest := { pr_Port : Z; pr_Name : string; pr_Path : string }.
Record ScanRangeRequest := { srr_Start : Z; srr_End : Z }.

(** POST /api/mappings.  [toLower] is [strings.ToLower] (a library
    function, kept as an argument), [now] is [time.Now()], [save_ok] the
    outcome of [cs.Save()].  Returns the status code and the in-memory
    config afterwards. *)
Definition post_mappings (toLower : string -> string) (save_ok : bool)
    (now : Z) (c : Config) (req : option MappingRequest) : Z * Config :=
  match req with
  | None => (400%Z, c)
  | Some rq =>
      if String.eqb (mr_Domain rq) "" || Z.eqb (mr_Port rq) 0 then (400%Z, c)
      else
        let domain := toLower (TrimSpace (mr_Domain rq)) in
        let domain := TrimSuffix domain ".localhost" in
        if String.eqb domain "portgate" || String.eqb domain "" then (400%Z, c)
        else
          let m := {| dm_Domain := domain; dm_TargetPort := mr_Port rq;
                      dm_CreatedAt := now; dm_System := false |} in
          let c' := AddMapping c m in
          ((if save_ok then 201 else 500)%Z, c')
  end.

(** POST /api/ports. *)
Definition post_ports (save_ok : bool) (c : Config) (req : option PortRequest)
    : Z * Config :=
  match req with
  | None => (400%Z, c)
  | Some rq =>
      if Z.ltb (pr_Port rq) 1 || Z.ltb 65535 (pr_Port rq) then (400%Z, c)
      else
        let mp := {| mp_Port := pr_Port rq; mp_Name := pr_Name rq;
                     mp_Path := pr_Path rq |} in
        ((if save_ok then 201 else 500)%Z, AddManualPort c mp)
  end.

(** POST /api/scan-ranges. *)
Definition post_scan_ranges (save_ok : bool) (c : Config)
    (req : option ScanRangeRequest) : Z * Config :=
  match req with
  | None => (400%Z, c)
  | Some rq =>
      if Z.ltb (srr_Start rq) 1 || Z.ltb 65535 (srr_End rq)
         || Z.ltb (srr_End rq) (srr_Start rq) then (400%Z, c)
      else
        let sr := {| sr_Start := srr_Start rq; sr_End := srr_End rq |} in
        let '(c', saves) := AddScanRange c sr in
        ((if saves && negb save_ok then 500 else 201)%Z, c')
  end.

(** [strings.ToLower] on ASCII strings. *)
Definition ascii_ToLower (s : string) : string :=
  string_of_list_ascii (map lower_ascii (byte_list s)).

(** [ConfigStore.RemoveMapping], in-memory part (the following
    [cs.Save()] only writes the file). *)
Definition RemoveMapping (c : Config) (domain : string) : Config :=
  set_Mappings c
    (List.filter (fun e => negb (String.eqb (dm_Domain e) domain))
                 (cfg_Mappings c)).

(** [ConfigStore.RemoveScanRange], in-memory part: the defaults are copied
    in first when no range is configured; [cs.Save()] is always reached. *)
Definition RemoveScanRange (c : Config) (sr : ScanRange) : Config :=
  let rs := match cfg_ScanRanges c with [] => DefaultScanRanges | rs => rs end in
  set_ScanRanges c (List.filter (fun e => negb (sr_eqb e sr)) rs).

(** [ConfigStore.RemoveManualPort], in-memory part. *)
Definition RemoveManualPort (c : Config) (port : Z) : Config :=
  set_ManualPorts c
    (List.filter (fun e => negb (Z.eqb (mp_Port e) port)) (cfg_ManualPorts c)).

(** DELETE /api/mappings?domain=[domain] ([domain] is "" when the query
    has none). *)
Definition delete_mappings (save_ok : bool) (c : Config) (domain : string)
    : Z * Config :=
  if String.eqb domain "" then (400%Z, c)
  else if existsb (fun m => String.eqb (dm_Domain m) domain && dm_System m)
                  (cfg_Mappings c)
  then (403%Z, c)
  else ((if save_ok then 204 else 500)%Z, RemoveMapping c domain).

End Store.

(* ===================================================================== *)
(** ** Scanner (part_001, first file: the config-driven scanner) *)

Record DiscoveredPort := {
  dp_Port : Z;
  dp_Protocol : string;
  dp_ServiceName : string;
  dp_Title : string;
  dp_Healthy : bool;
  dp_LastSeen : Z;
  dp_Source : string;
  dp_ExePath : string
}.

(** An answer to [client.Get("http://127.0.0.1:<port>/")]: the body bytes
    the server sends, whether reading them fails, and the first [Server]
    header value ("" when absent). *)
Record HttpResponse := {
  resp_Body : list ascii;
  resp_BodyErr : bool;
  resp_Server : string
}.

Module Scan.

(** The regexp [(?i)<title[^>]*>([^<]+)</title>], [FindSubmatch], group 1.
    Go's leftmost-first matching: the first start position where a match
    exists wins.  From a start, [[^>]*] must stop at the first '>', and
    [[^<]+] at the first '<', which must begin "</title>" (both bytes are
    ASCII and never occur inside a multi-byte rune, so a byte-wise reading
    is exact); case-insensitivity of the ASCII letters of "title" is
    exact as no other rune folds to them. *)
Fixpoint prefix_fold (p s : list ascii) : option (list ascii) :=
  match p, s with
  | [], _ => Some s
  | c :: p', d :: s' =>
      if Ascii.eqb (lower_ascii c) (lower_ascii d) then prefix_fold p' s'
      else None
  | _ :: _, [] => None
  end.

Fixpoint skip_until (stop : ascii) (s : list ascii) : option (list ascii) :=
  match s with
  | [] => None
  | c :: s' => if Ascii.eqb c stop then Some s' else skip_until stop s'
  end.

Fixpoint take_until (stop : ascii) (s : list ascii) : list ascii * list ascii :=
  match s with
  | [] => ([], [])
  | c :: s' =>
      if Ascii.eqb c stop then ([], s)
      else let '(a, r) := take_until stop s' in (c :: a, r)
  end.

Definition open_tag : list ascii := byte_list "<title".
Definition close_tag : list ascii := byte_list "</title>".

(** The match starting exactly at the head of [s], if any. *)
Definition title_at (s : list ascii) : option (list ascii) :=
  match prefix_fold open_tag s with
  | None => None
  | Some r =>
      match skip_until ">" r with
      | None => None
      | Some r' =>
          let '(content, rest) := take_until "<" r' in
          match content with
          | [] => None
          | _ :: _ =>
              match prefix_fold close_tag rest with
              | Some _ => Some content
              | None => None
              end
          end
      end
  end.

Fixpoint find_title (s : list ascii) : option (list ascii) :=
  match title_at s with
  | Some t => Some t
  | None => match s with [] => None | _ :: s' => find_title s' end
  end.

(** [io.LimitReader(r, n)] read to the end: the first [n] bytes. *)
Fixpoint limit_bytes (n : N) (s : list ascii) : list ascii :=
  match s with
  | [] => []
  | c :: s' => if N.eqb n 0 then [] else c :: limit_bytes (N.pred n) s'
  end.

(** [Scanner.probeHTTP]: the fields of [dp] it changes. *)
Definition probeHTTP (resp : option HttpResponse) (dp : DiscoveredPort)
    : DiscoveredPort :=
  let with_sn sn t :=
    {| dp_Port := dp_Port dp; dp_Protocol := dp_Protocol dp;
       dp_ServiceName := sn; dp_Title := t; dp_Healthy := dp_Healthy dp;
       dp_LastSeen := dp_LastSeen dp; dp_Source := dp_Source dp;
       dp_ExePath := dp_ExePath dp |} in
  match resp with
  | None => with_sn "tcp" (dp_Title dp)
  | Some rsp =>
      if resp_BodyErr rsp then with_sn "http" (dp_Title dp)
      else
        let body := limit_bytes (64 * 1024) (resp_Body rsp) in
        let title :=
          match find_title body with
          | Some t => TrimSpace (string_of_list_ascii t)
          | None => dp_Title dp
          end in
        let title :=
          if negb (String.eqb (resp_Server rsp) "") && String.eqb title ""
          then resp_Server rsp else title in
        with_sn "http" title
  end.

Section ScanCycle.

(** The environment of one cycle: [isOpen] (a 500 ms TCP connect),
    [httpGet] (the 2 s GET of "/") and [now] ([time.Now()]). *)
Variable isOpen : Z -> bool.
Variable httpGet : Z -> option HttpResponse.
Variable now : Z.

(** [for port := r.Start; port <= r.End; port++] *)
Definition range_ports (r : ScanRange) : list Z :=
  map (fun i => sr_Start r + Z.of_nat i)%Z
      (seq 0 (Z.to_nat (sr_End r - sr_Start r + 1))).

Definition scan_entry (port : Z) : DiscoveredPort :=
  probeHTTP (httpGet port)
    {| dp_Port := port; dp_Protocol := "tcp"; dp_ServiceName := "";
       dp_Title := ""; dp_Healthy := true; dp_LastSeen := now;
       dp_Source := "scan"; dp_ExePath := "" |}.

(** The range sweep: the scan-origin entries, in order. *)
Definition scan_ranges (ranges : list ScanRange) : list DiscoveredPort :=
  flat_map (fun r => map scan_entry (List.filter isOpen (range_ports r)))
           ranges.

(** [scannedPorts[p]] *)
Definition scanned (ranges : list ScanRange) (p : Z) : bool :=
  existsb (fun r => existsb (Z.eqb p) (List.filter isOpen (range_ports r)))
          ranges.

Definition manual_entry (mp : ManualPort) : DiscoveredPort :=
  let dp := {| dp_Port := mp_Port mp; dp_Protocol := "tcp";
               dp_ServiceName := ""; dp_Title := "";
               dp_Healthy := isOpen (mp_Port mp); dp_LastSeen := now;
               dp_Source := "manual"; dp_ExePath := "" |} in
  let set_title (d : DiscoveredPort) t :=
    {| dp_Port := dp_Port d; dp_Protocol := dp_Protocol d;
       dp_ServiceName := dp_ServiceName d; dp_Title := t;
       dp_Healthy := dp_Healthy d; dp_LastSeen := dp_LastSeen d;
       dp_Source := dp_Source d; dp_ExePath := dp_ExePath d |} in
  let dp := if negb (String.eqb (mp_Name mp) "") then set_title dp (mp_Name mp)
            else dp in
  if dp_Healthy dp then
    let dp := probeHTTP (httpGet (mp_Port mp)) dp in
    if String.eqb (dp_Title dp) "" && negb (String.eqb (mp_Name mp) "")
    then set_title dp (mp_Name mp) else dp
  else dp.

(** [Scanner.scan] on the config [c]. *)
Definition scan (c : Config) : list DiscoveredPort :=
  let ranges := Store.ScanRanges c in
  scan_ranges ranges ++
  map manual_entry
      (List.filter (fun mp => negb (scanned ranges (mp_Port mp)))
                   (Store.ManualPorts c)).

End ScanCycle.

End Scan.

(* ===================================================================== *)
(** ** More of package strings and strconv *)

Module GoSplit.

(** [strings.Split(s, sep)] for a one-byte separator. *)
Fixpoint split_aux (sep : ascii) (cur : list ascii) (s : list ascii)
    : list string :=
  match s with
  | [] => [string_of_list_ascii (rev cur)]
  | c :: s' =>
      if Ascii.eqb c sep then string_of_list_ascii (rev cur) :: split_aux sep [] s'
      else split_aux sep (c :: cur) s'
  end.

Definition Split (s : string) (sep : ascii) : list string :=
  split_aux sep [] (byte_list s).

(** [strings.SplitN(s, sep, 2)] for a one-byte separator. *)
Definition SplitN2 (s : string) (sep : ascii) : list string :=
  match index_byte s sep with
  | None => [s]
  | Some i => [slice_to s i; slice_from s (i + 1)]
  end.

(** [strings.Fields]: the maximal runs of bytes between white-space runes
    (the encodings of [GoTrim.space_seqs] start with lead bytes, so a
    byte-wise scan finds exactly the runes [FieldsFunc] decodes). *)
Fixpoint fields_aux (fuel : nat) (cur : list ascii) (s : list ascii)
    : list string :=
  match fuel with
  | O => match cur with [] => [] | _ => [string_of_list_ascii (rev cur)] end
  | S fuel' =>
      match s with
      | [] => match cur with [] => [] | _ => [string_of_list_ascii (rev cur)] end
      | c :: s1 =>
          match strip_one space_seqs s with
          | Some s' =>
              match cur with
              | [] => fields_aux fuel' [] s'
              | _ => string_of_list_ascii (rev cur) :: fields_aux fuel' [] s'
              end
          | None => fields_aux fuel' (c :: cur) s1
          end
      end
  end.

Definition Fields (s : string) : list string :=
  fields_aux (String.length s) [] (byte_list s).

Definition digit_val (c : ascii) : option Z :=
  let n := nat_of_ascii c in
  if ((48 <=? n) && (n <=? 57))%nat then Some (Z.of_nat (n - 48)) else None.

Fixpoint digits_val (acc : Z) (s : list ascii) : option Z :=
  match s with
  | [] => Some acc
  | c :: s' =>
      match digit_val c with
      | Some d => digits_val (acc * 10 + d)%Z s'
      | None => None
      end
  end.

(** [strconv.Atoi] (64-bit [int]): optional sign, at least one decimal
    digit, value in range. *)
Definition Atoi (s : string) : option Z :=
  let '(neg, ds) :=
    match byte_list s with
    | "+"%char :: ds => (false, ds)
    | "-"%char :: ds => (true, ds)
    | ds => (false, ds)
    end in
  match ds with
  | [] => None
  | _ =>
      match digits_val 0 ds with
      | None => None
      | Some v =>
          let v := if neg then (- v)%Z else v in
          if ((- 9223372036854775808 <=? v) && (v <=? 9223372036854775807))%Z
          then Some v else None
      end
  end.

(** [hex.DecodeString]. *)
Definition hex_val (c : ascii) : option Z :=
  let n := nat_of_ascii c in
  if ((48 <=? n) && (n <=? 57))%nat then Some (Z.of_nat (n - 48))
  else if ((97 <=? n) && (n <=? 102))%nat then Some (Z.of_nat (n - 87))
  else if ((65 <=? n) && (n <=? 70))%nat then Some (Z.of_nat (n - 55))
  else None.

Fixpoint hex_decode (s : list ascii) : option (list Z) :=
  match s with
  | [] => Some []
  | [_] => None
  | a :: b :: s' =>
      match hex_val a, hex_val b, hex_decode s' with
      | Some x, Some y, Some r => Some ((x * 16 + y)%Z :: r)
      | _, _, _ => None
      end
  end.

(** [strings.Contains] *)
Fixpoint is_prefix (p s : list ascii) : bool :=
  match p, s with
  | [], _ => true
  | c :: p', d :: s' => Ascii.eqb c d && is_prefix p' s'
  | _ :: _, [] => false
  end.

Fixpoint contains_aux (p s : list ascii) : bool :=
  is_prefix p s || match s with [] => false | _ :: s' => contains_aux p s' end.

Definition Contains (s sub : string) : bool :=
  contains_aux (byte_list sub) (byte_list s).

End GoSplit.

Import GoSplit.

(* ===================================================================== *)
(** ** ProcessResolver (process_unix.go, process_windows.go) *)

Record DirEntry := { de_Name : string; de_IsDir : bool }.

(** The parts of the file system the resolver reads: [os.ReadFile],
    [os.ReadDir] and [os.Readlink], [None] for every error. *)
Record ProcFS := {
  fs_ReadFile : string -> option string;
  fs_ReadDir : string -> option (list DirEntry);
  fs_Readlink : string -> option string
}.

Module ResolverUnix.

(** The loop body of [findInodeInFile] for one line: [Some inode] when the
    line is a well-formed LISTEN row on [port]. *)
Definition row_inode (line : string) (port : Z) : option string :=
  let fields := Fields line in
  if (List.length fields <? 10)%nat then None
  else if negb (String.eqb (nth 3 fields "") "0A") then None
  else
    match SplitN2 (nth 1 fields "") ":" with
    | [_; portHex] =>
        match hex_decode (byte_list portHex) with
        | Some [b0; b1] =>
            let localPort := Z.lor (Z.shiftl b0 8) b1 in
            if Z.eqb localPort port then Some (nth 9 fields "") else None
        | _ => None
        end
    | _ => None
    end.

Fixpoint first_row (lines : list string) (port : Z) : string :=
  match lines with
  | [] => ""
  | l :: ls => match row_inode l port with Some i => i | None => first_row ls port end
  end.

Definition findInodeInFile (fs : ProcFS) (path : string) (port : Z) : string :=
  match fs_ReadFile fs path with
  | None => ""
  | Some data => first_row (tl (Split data "010"%char)) port
  end.

Definition findSocketInode (fs : ProcFS) (port : Z) : string :=
  let i := findInodeInFile fs "/proc/net/tcp" port in
  if negb (String.eqb i "") then i else findInodeInFile fs "/proc/net/tcp6" port.

(** [filepath.Join] of names read from a directory (no '/', not "." or
    ".."): plain concatenation with '/'. *)
Definition fd_dir (pid : string) : string := "/proc/" ++ pid ++ "/fd".

Fixpoint find_fd (fs : ProcFS) (dir target : string) (fds : list DirEntry) : bool :=
  match fds with
  | [] => false
  | fd :: fds' =>
      match fs_Readlink fs (dir ++ "/" ++ de_Name fd) with
      | Some link => if String.eqb link target then true else find_fd fs dir target fds'
      | None => find_fd fs dir target fds'
      end
  end.

Fixpoint find_pid (fs : ProcFS) (target : string) (es : list DirEntry) : string :=
  match es with
  | [] => ""
  | e :: es' =>
      if negb (de_IsDir e) then find_pid fs target es'
      else match Atoi (de_Name e) with
           | None => find_pid fs target es'
           | Some _ =>
               match fs_ReadDir fs (fd_dir (de_Name e)) with
               | None => find_pid fs target es'
               | Some fds =>
                   if find_fd fs (fd_dir (de_Name e)) target fds then de_Name e
                   else find_pid fs target es'
               end
           end
  end.

Definition findPIDByInode (fs : ProcFS) (inode : string) : string :=
  let target := "socket:[" ++ inode ++ "]" in
  match fs_ReadDir fs "/proc" with
  | None => ""
  | Some es => find_pid fs target es
  end.

Definition findExeByPort (fs : ProcFS) (port : Z) : string :=
  let inode := findSocketInode fs port in
  if String.eqb inode "" then ""
  else
    let pid := findPIDByInode fs inode in
    if String.eqb pid "" then ""
    else
      match fs_Readlink fs ("/proc/" ++ pid ++ "/exe") with
      | None => ""
      | Some exe => TrimSuffix exe " (deleted)"
      end.

End ResolverUnix.

Module ResolverWindows.

(** [findPIDByPort] on the output of [netstat -ano] ([None]: the command
    failed). *)
Definition line_pid (line : string) (port : Z) (needle : string) : option Z :=
  let line := TrimSpace line in
  if negb (Contains line "LISTENING") then None
  else if negb (Contains line needle) then None
  else
    let fields := Fields line in
    if (List.length fields <? 5)%nat then None
    else
      let parts := Split (nth 1 fields "") ":" in
      if (List.length parts <? 2)%nat then None
      else
        match Atoi (List.last parts "") with
        | Some p =>
            if Z.eqb p port then Atoi (List.last fields "") else None
        | None => None
        end.

Fixpoint first_pid (lines : list string) (port : Z) (needle : string) : Z :=
  match lines with
  | [] => 0%Z
  | l :: ls => match line_pid l port needle with
               | Some pid => pid
               | None => first_pid ls port needle
               end
  end.

(** [fmt.Sprintf(":%d ", port)] *)
Definition needle_of (port : Z) : string :=
  ":" ++ NilEmpty.string_of_int (Z.to_int port) ++ " ".

Definition findPIDByPort (netstat : option string) (port : Z) : Z :=
  let needle := needle_of port in
  match netstat with
  | None => 0%Z
  | Some out => first_pid (Split out "010"%char) port needle
  end.

(** [getProcessExePath]: [imagePath pid] is the path
    [QueryFullProcessImageNameW] writes, [None] when [OpenProcess] or the
    query fails. *)
Definition findExeByPort (netstat : option string)
    (imagePath : Z -> option string) (port : Z) : string :=
  let pid := findPIDByPort netstat port in
  if Z.eqb pid 0 then ""
  else match imagePath pid with Some p => p | None => "" end.

End ResolverWindows.

(* ===================================================================== *)
(** ** The Hub's client-management loop ([Hub.Run]) *)

Module HubRun.

(** A [WSClient] is named by a number; its [send] channel is a buffered
    [chan []byte] of capacity 256 ([make(chan []byte, 256)]). *)
Definition sendCap : nat := 256.

Record Chan := mkChan { ch_buf : list string; ch_closed : bool }.

(** [h.clients] (a [map[*WSClient]bool] used as a set) and the [send]
    channel of every client that was created. *)
Record Hub := mkHub { clients : gset nat; sends : gmap nat Chan }.

(** [select { case client.send <- msg: ... default: ... }]: a send on an
    open buffered channel succeeds iff the buffer has room; a send on a
    closed (or missing) channel panics, written [None]. *)
Fixpoint broadcast_loop (msg : string) (cs : list nat) (h : Hub) : option Hub :=
  match cs with
  | [] => Some h
  | c :: cs' =>
      match sends h !! c with
      | None => None
      | Some ch =>
          if ch_closed ch then None
          else if Nat.ltb (length (ch_buf ch)) sendCap then
            (* case client.send <- msg *)
            broadcast_loop msg cs'
              (mkHub (clients h) (<[c := mkChan (ch_buf ch ++ [msg]) false]> (sends h)))
          else
            (* default: close(client.send); delete(h.clients, client) *)
            broadcast_loop msg cs'
              (mkHub (clients h ∖ {[c]}) (<[c := mkChan (ch_buf ch) true]> (sends h)))
      end
  end.

(** [case msg := <-h.broadcast: for client := range h.clients { ... }] *)
Definition broadcast (msg : string) (h : Hub) : option Hub :=
  broadcast_loop msg (elements (clients h)) h.

(** The [/ws] handler's [&WSClient{..., send: make(chan []byte, 256)}]:
    a new client [c] with an empty open channel. *)
Definition new_client (c : nat) (h : Hub) : Hub :=
  mkHub (clients h) (<[c := mkChan [] false]> (sends h)).

(** [case client := <-h.register: h.clients[client] = true] *)
Definition register (c : nat) (h : Hub) : Hub :=
  mkHub (clients h ∪ {[c]}) (sends h).

(** [case client := <-h.unregister]: only a member is deleted and has its
    channel closed; closing a closed channel panics ([None]). *)
Definition unregister (c : nat) (h : Hub) : option Hub :=
  if decide (c ∈ clients h) then
    match sends h !! c with
    | None => None
    | Some ch =>
        if ch_closed ch then None
        else Some (mkHub (clients h ∖ {[c]}) (<[c := mkChan (ch_buf ch) true]> (sends h)))
    end
  else Some h.

(** [writePump]'s [for msg := range c.send] taking one queued message (a
    receive never panics; on an empty queue it waits, leaving the state). *)
Definition receive (c : nat) (h : Hub) : Hub :=
  match sends h !! c with
  | Some ch =>
      match ch_buf ch with
      | _ :: rest => mkHub (clients h) (<[c := mkChan rest (ch_closed ch)]> (sends h))
      | [] => h
      end
  | None => h
  end.

Inductive HubEvent :=
  | Connect (c : nat)        (* a /ws request: new client, hub.register <- client *)
  | Disconnect (c : nat)     (* readPump's deferred hub.unregister <- c *)
  | Broadcast (msg : string) (* broadcastUpdate: h.broadcast <- data *)
  | Receive (c : nat).       (* writePump *)

Definition hub_step (e : HubEvent) (h : Hub) : option Hub :=
  match e with
  | Connect c => Some (register c (new_client c h))
  | Disconnect c => unregister c h
  | Broadcast msg => broadcast msg h
  | Receive c => Some (receive c h)
  end.

Fixpoint hub_run (es : list HubEvent) (h : Hub) : option Hub :=
  match es with
  | [] => Some h
  | e :: es' => match hub_step e h with
                | Some h' => hub_run es' h'
                | None => None
                end
  end.

(** [NewHub]: no client. *)
Definition NewHub : Hub := mkHub ∅ ∅.

Definition connected (es : list HubEvent) : list nat :=
  flat_map (fun e => match e with Connect c => [c] | _ => [] end) es.

End HubRun.

(* ===================================================================== *)
(** ** Release versions ([isNewer], process_unix.go) *)

Module Release.

(** [strings.TrimPrefix]. *)
Definition TrimPrefix (s prefix : string) : string :=
  if String.prefix prefix s
  then substring (String.length prefix) (String.length s - String.length prefix) s
  else s.

(** [strings.SplitN(s, sep, 3)] for a one-byte separator: at most two
    cuts, the rest of [s] in the last part. *)
Definition SplitN3 (s : string) (sep : ascii) : list string :=
  match index_byte s sep with
  | None => [s]
  | Some i =>
      let rest := slice_from s (i + 1) in
      match index_byte rest sep with
      | None => [slice_to s i; rest]
      | Some j => [slice_to s i; slice_to rest j; slice_from rest (j + 1)]
      end
  end.

(** The closure [parse] of [isNewer]. *)
Definition parse (v : string) : option (Z * Z * Z) :=
  let v := TrimPrefix v "v" in
  match SplitN3 v "." with
  | [a; b; c] =>
      match Atoi a, Atoi b, Atoi c with
      | Some major, Some minor, Some patch => Some (major, minor, patch)
      | _, _, _ => None
      end
  | _ => None
  end.

Definition isNewer (local remote : string) : bool :=
  match parse local, parse remote with
  | Some (lMaj, lMin, lPat), Some (rMaj, rMin, rPat) =>
      if negb (Z.eqb rMaj lMaj) then Z.gtb rMaj lMaj
      else if negb (Z.eqb rMin lMin) then Z.gtb rMin lMin
      else Z.gtb rPat lPat
  | _, _ => false
  end.

End Release.

(* ===================================================================== *)
(** ** The dashboard script (static/client.js) *)

Module ClientJS.

(** A JavaScript string as its UTF-16 code units. *)
Definition js_string := list Z.

Definition js_of_string (s : string) : js_string :=
  map (fun a => Z.of_nat (nat_of_ascii a)) (list_ascii_of_string s).

(** [s.replace(/u/g, rep)] for a one-unit pattern and a replacement
    without [$]. *)
Definition replace_all (u : Z) (rep : js_string) (s : js_string) : js_string :=
  flat_map (fun x => if Z.eqb x u then rep else [x]) s.

(** [escapeHtml] on a string argument ([!str] holds only for ""). *)
Definition escapeHtml (str : js_string) : js_string :=
  match str with
  | [] => []
  | _ =>
      replace_all 34 (js_of_string "&quot;")
        (replace_all 62 (js_of_string "&gt;")
          (replace_all 60 (js_of_string "&lt;")
            (replace_all 38 (js_of_string "&amp;") str)))
  end.

End ClientJS.

(* ===================================================================== *)
(** * Proofs *)

Module StrFacts.

Lemma length_app (a b : string) :
  String.length (a ++ b) = (String.length a + String.length b)%nat.
Proof. induction a; simpl; auto. Qed.

Lemma substring_0_full (s : string) : substring 0 (String.length s) s = s.
Proof. induction s; simpl; f_equal; auto. Qed.

Lemma substring_app_r (a b : string) :
  substring (String.length a) (String.length b) (a ++ b) = b.
Proof. induction a; simpl; auto using substring_0_full. Qed.

Lemma substring_app_l (a b : string) :
  substring 0 (String.length a) (a ++ b) = a.
Proof. induction a; simpl; [destruct b|]; f_equal; auto. Qed.

Lemma HasSuffix_app (a b : string) : HasSuffix (a ++ b) b = true.
Proof.
  unfold HasSuffix. rewrite length_app.
  replace (String.length a + String.length b - String.length b)%nat
    with (String.length a) by lia.
  rewrite substring_app_r, String.eqb_refl.
  apply andb_true_intro; split; [apply Nat.leb_le; lia | reflexivity].
Qed.

Lemma TrimSuffix_app (a b : string) : TrimSuffix (a ++ b) b = a.
Proof.
  unfold TrimSuffix. rewrite HasSuffix_app, length_app.
  replace (String.length a + String.length b - String.length b)%nat
    with (String.length a) by lia.
  apply substring_app_l.
Qed.

Lemma contains_byte_app (a b : string) (c : ascii) :
  contains_byte (a ++ b) c = contains_byte a c || contains_byte b c.
Proof.
  unfold contains_byte. induction a as [|d a IH]; simpl; [reflexivity|].
  destruct (Ascii.eqb d c); [reflexivity|].
  destruct (index_byte a c), (index_byte (a ++ b) c); simpl in *; auto.
Qed.

Lemma contains_byte_cons (d : ascii) (a : string) (c : ascii) :
  contains_byte (String d a) c = Ascii.eqb d c || contains_byte a c.
Proof.
  unfold contains_byte; simpl.
  destruct (Ascii.eqb d c), (index_byte a c); reflexivity.
Qed.

Lemma last_index_byte_app_last (a b : string) (c : ascii) :
  contains_byte b c = false ->
  last_index_byte (a ++ String c b) c = Some (String.length a).
Proof.
  intros Hb. induction a as [|d a IH]; simpl.
  - assert (last_index_byte b c = None) as ->.
    { clear -Hb. induction b as [|e b IHb]; simpl; auto.
      rewrite contains_byte_cons in Hb. apply orb_false_iff in Hb as [H1 H2].
      rewrite IHb by exact H2. now rewrite H1. }
    now rewrite Ascii.eqb_refl.
  - now rewrite IH.
Qed.

Lemma slice_from_0 (s : string) : slice_from s 0 = s.
Proof. unfold slice_from. rewrite Nat.sub_0_r. apply substring_0_full. Qed.

Lemma slice_to_app (a b : string) : slice_to (a ++ b) (String.length a) = a.
Proof. apply substring_app_l. Qed.

Lemma slice_from_app (a b : string) :
  slice_from (a ++ b) (String.length a) = b.
Proof.
  unfold slice_from. rewrite length_app.
  replace (String.length a + String.length b - String.length a)%nat
    with (String.length b) by lia.
  apply substring_app_r.
Qed.

End StrFacts.

Module ProxyFacts.
Import Proxy.

Example route_api :
  ProxyHandler "localhost"
    [{| dm_Domain := "api"; dm_TargetPort := 3000; dm_CreatedAt := 0;
        dm_System := false |}]
    {| req_Host := "api.localhost:8080"; req_Header := [] |}
  = ReverseProxy 3000.
Proof. reflexivity. Qed.

Example split_v6 : SplitHostPort "[::1]:80" = Some ("::1", "80").
Proof. reflexivity. Qed.

Example split_two_colons : SplitHostPort "a:b:c" = None.
Proof. reflexivity. Qed.

Example fold_kelvin :
  EqualFold ("websoc" ++ String "226" (String "132" (String "170" "et")))
    "websocket" = true.
Proof. reflexivity. Qed.


Lemma last_index_byte_none (s : string) (c : ascii) :
  contains_byte s c = false -> last_index_byte s c = None.
Proof.
  induction s as [|e s IH]; simpl; intros H; auto.
  rewrite StrFacts.contains_byte_cons in H. apply orb_false_iff in H as [H1 H2].
  rewrite IH by exact H2. now rewrite H1.
Qed.

(** A host without colons and brackets, followed by [:port] with a port
    without colons and brackets, is split into that host. *)
Lemma strip_host_port_port (h p : string) :
  contains_byte h ":" = false -> contains_byte h "[" = false ->
  contains_byte h "]" = false ->
  contains_byte p ":" = false -> contains_byte p "[" = false ->
  contains_byte p "]" = false ->
  strip_host_port (h ++ ":" ++ p) = h.
Proof.
  intros Hc Hl Hr Pc Pl Pr.
  unfold strip_host_port, SplitHostPort.
  change (":" ++ p) with (String ":" p).
  rewrite StrFacts.last_index_byte_app_last by exact Pc.
  assert (Hfirst : match byte_at (h ++ String ":" p) 0 with
                   | Some c => Ascii.eqb c "["
                   | None => false end = false).
  { destruct h as [|d h']; [reflexivity|].
    simpl. rewrite StrFacts.contains_byte_cons in Hl.
    now apply orb_false_iff in Hl as [-> _]. }
  rewrite Hfirst, StrFacts.slice_to_app, Hc, !StrFacts.slice_from_0.
  rewrite !StrFacts.contains_byte_app, !StrFacts.contains_byte_cons,
    Hl, Hr, Pl, Pr.
  reflexivity.
Qed.

(** A host without any colon is used as it is. *)
Lemma strip_host_port_noport (h : string) :
  contains_byte h ":" = false -> strip_host_port h = h.
Proof.
  intros H. unfold strip_host_port, SplitHostPort.
  now rewrite last_index_byte_none.
Qed.

Definition without_portgate (ms : list DomainMapping) : list DomainMapping :=
  List.filter (fun m => negb (String.eqb (dm_Domain m) "portgate")) ms.

Lemma LookupPort_without_portgate (ms : list DomainMapping) (d : string) :
  d <> "portgate" -> LookupPort (without_portgate ms) d = LookupPort ms d.
Proof.
  intros Hd. induction ms as [|m ms IH]; simpl; auto.
  destruct (String.eqb_spec (dm_Domain m) "portgate") as [Hp|Hp]; simpl.
  - rewrite Hp. destruct (String.eqb_spec "portgate" d); [congruence|auto].
  - destruct (String.eqb (dm_Domain m) d); auto.
Qed.

Lemma extractSubdomain_app (x suffix : string) :
  x <> "" -> extractSubdomain (x ++ "." ++ suffix) suffix = x.
Proof.
  intros Hx. unfold extractSubdomain.
  rewrite StrFacts.HasSuffix_app, StrFacts.TrimSuffix_app; simpl.
  destruct (String.eqb_spec x ""); congruence.
Qed.

(** C1 (amended).  After the [Host] header has gone through
    [net.SplitHostPort] (host part kept when it succeeds, header kept as
    it is otherwise): a host [X.<suffix>] with [X] non-empty and not
    "portgate" is routed by looking [X] up in the mappings; the hosts
    [.<suffix>], [portgate.<suffix>] and every host not ending in
    [.<suffix>] go to the dashboard; and the routing decision never
    depends on a mapping named "portgate". *)
Theorem ProxyHandler_host_routing (suffix : string) (ms : list DomainMapping)
    (r : Request) :
  let h := strip_host_port (req_Host r) in
  (forall x, h = x ++ "." ++ suffix -> x <> "" -> x <> "portgate" ->
     ProxyHandler suffix ms r = mapped_action ms r x) /\
  (h = "." ++ suffix \/ h = "portgate." ++ suffix \/
   HasSuffix h ("." ++ suffix) = false ->
     ProxyHandler suffix ms r = ProxyToDashboard) /\
  ProxyHandler suffix ms r = ProxyHandler suffix (without_portgate ms) r.
Proof.
  cbv zeta. split; [|split].
  - intros x Hh Hx Hp. unfold ProxyHandler. rewrite Hh, extractSubdomain_app
      by exact Hx.
    destruct (String.eqb_spec x ""); [congruence|].
    destruct (String.eqb_spec x "portgate"); [congruence|].
    reflexivity.
  - intros [Hh|[Hh|Hh]]; unfold ProxyHandler, extractSubdomain.
    + rewrite Hh.
      assert (A := StrFacts.HasSuffix_app "" ("." ++ suffix)).
      assert (B := StrFacts.TrimSuffix_app "" ("." ++ suffix)).
      change ("" ++ "." ++ suffix) with ("." ++ suffix) in A, B.
      rewrite A, B. reflexivity.
    + rewrite Hh. change ("portgate." ++ suffix)
        with ("portgate" ++ "." ++ suffix).
      rewrite StrFacts.HasSuffix_app, StrFacts.TrimSuffix_app. reflexivity.
    + rewrite Hh. reflexivity.
  - unfold ProxyHandler, mapped_action.
    set (sub := extractSubdomain _ _).
    destruct (String.eqb_spec sub "") as [E|E]; [reflexivity|].
    destruct (String.eqb_spec sub "portgate") as [P|P]; [reflexivity|].
    simpl. rewrite LookupPort_without_portgate by exact P. reflexivity.
Qed.

(** C1 counterexample: [net.SplitHostPort] also removes the brackets of a
    bracketed host, so "[api.localhost]:80" is routed to the mapping of
    "api", while stripping only the ":80" suffix leaves
    "[api.localhost]", which does not end in ".localhost" and would go to
    the dashboard. *)
Lemma ProxyHandler_bracketed_host_cex :
  let ms := [{| dm_Domain := "api"; dm_TargetPort := 3000;
                dm_CreatedAt := 0; dm_System := false |}] in
  let r := {| req_Host := "[api.localhost]:80"; req_Header := [] |} in
  ProxyHandler "localhost" ms r = ReverseProxy 3000 /\
  spec_route "localhost" ms r = ProxyToDashboard.
Proof. split; reflexivity. Qed.

(** C4 (code bug).  [isWebSocketUpgrade] compares the whole first
    [Connection] value with "upgrade"; a header listing several tokens,
    such as "keep-alive, Upgrade" (sent by Firefox), is not recognised and
    the upgrade request goes to the buffered reverse proxy, although its
    token set contains "upgrade".  The single-token header is recognised. *)
Theorem ProxyHandler_multi_token_upgrade_missed :
  let ms := [{| dm_Domain := "app"; dm_TargetPort := 3000;
                dm_CreatedAt := 0; dm_System := false |}] in
  let r := {| req_Host := "app.localhost";
              req_Header := [("Connection", ["keep-alive, Upgrade"]);
                             ("Upgrade", ["websocket"])] |} in
  let r1 := {| req_Host := "app.localhost";
               req_Header := [("Connection", ["Upgrade"]);
                              ("Upgrade", ["websocket"])] |} in
  spec_isWebSocketUpgrade r = true /\
  isWebSocketUpgrade r = false /\
  ProxyHandler "localhost" ms r = ReverseProxy 3000 /\
  ProxyHandler "localhost" ms r1 = WebSocketTunnel 3000.
Proof. repeat split; reflexivity. Qed.

End ProxyFacts.

Module StoreFacts.
Import Store.

Example trim_space_ex : TrimSpace (String (b 194) (String (b 160) " a b	")) = "a b".
Proof. reflexivity. Qed.

Lemma filter_same_domain (l : list DomainMapping) (d : string) :
  List.filter (fun e => String.eqb (dm_Domain e) d)
    (List.filter (fun e => negb (String.eqb (dm_Domain e) d)) l) = [].
Proof.
  induction l as [|e l IH]; simpl; auto.
  destruct (String.eqb (dm_Domain e) d) eqn:E; simpl; auto.
  now rewrite E.
Qed.

Lemma filter_other_domain (l : list DomainMapping) (d d' : string) :
  d' <> d ->
  List.filter (fun e => String.eqb (dm_Domain e) d')
    (List.filter (fun e => negb (String.eqb (dm_Domain e) d)) l) =
  List.filter (fun e => String.eqb (dm_Domain e) d') l.
Proof.
  intros Hd. induction l as [|e l IH]; simpl; auto.
  destruct (String.eqb_spec (dm_Domain e) d) as [E|E]; simpl.
  - rewrite IH. subst d. destruct (String.eqb_spec (dm_Domain e) d'); congruence.
  - destruct (String.eqb (dm_Domain e) d'); now rewrite IH.
Qed.

Lemma LookupPort_filtered_app (l : list DomainMapping) (m : DomainMapping) :
  Proxy.LookupPort
    (List.filter (fun e => negb (String.eqb (dm_Domain e) (dm_Domain m))) l ++ [m])
    (dm_Domain m) = dm_TargetPort m.
Proof.
  induction l as [|e l IH]; simpl.
  - now rewrite String.eqb_refl.
  - destruct (String.eqb (dm_Domain e) (dm_Domain m)) eqn:E; simpl; auto.
    now rewrite E.
Qed.

(** C5.  After [AddMapping c m] the mapping list holds exactly one entry
    for [m]'s domain, namely [m] with its new target port (which
    [LookupPort] returns), and the entries of every other domain are the
    old ones, in the old order. *)
Theorem AddMapping_last_write_wins (c : Config) (m : DomainMapping) :
  let ms' := cfg_Mappings (AddMapping c m) in
  List.filter (fun e => String.eqb (dm_Domain e) (dm_Domain m)) ms' = [m] /\
  Proxy.LookupPort ms' (dm_Domain m) = dm_TargetPort m /\
  (forall d, d <> dm_Domain m ->
     List.filter (fun e => String.eqb (dm_Domain e) d) ms' =
     List.filter (fun e => String.eqb (dm_Domain e) d) (cfg_Mappings c)).
Proof.
  cbv zeta. unfold AddMapping, set_Mappings; simpl.
  split; [|split].
  - rewrite List.filter_app, filter_same_domain; simpl.
    now rewrite String.eqb_refl.
  - apply LookupPort_filtered_app.
  - intros d Hd. rewrite List.filter_app, filter_other_domain by exact Hd.
    simpl. destruct (String.eqb_spec (dm_Domain m) d); [congruence|].
    apply app_nil_r.
Qed.

Example AddMapping_myapp :
  let m1 := {| dm_Domain := "myapp"; dm_TargetPort := 3000;
               dm_CreatedAt := 1; dm_System := false |} in
  let m2 := {| dm_Domain := "myapp"; dm_TargetPort := 4000;
               dm_CreatedAt := 2; dm_System := false |} in
  let c0 := {| cfg_Mappings := []; cfg_ScanIntervalSec := 10;
               cfg_ScanRanges := []; cfg_ManualPorts := [] |} in
  cfg_Mappings (AddMapping (AddMapping c0 m1) m2) = [m2].
Proof. reflexivity. Qed.

Lemma sr_eqb_refl (sr : ScanRange) : sr_eqb sr sr = true.
Proof. unfold sr_eqb. now rewrite !Z.eqb_refl. Qed.

Definition count_range (rs : list ScanRange) (sr : ScanRange) : nat :=
  List.length (List.filter (fun e => sr_eqb e sr) rs).

Lemma existsb_count (rs : list ScanRange) (sr : ScanRange) :
  existsb (fun e => sr_eqb e sr) rs = true <-> (1 <= count_range rs sr)%nat.
Proof.
  unfold count_range. induction rs as [|e rs IH]; simpl.
  - split; [discriminate|lia].
  - destruct (sr_eqb e sr); simpl; [split; auto; lia|exact IH].
Qed.

Lemma count_range_app (rs : list ScanRange) (sr : ScanRange) :
  count_range (rs ++ [sr]) sr = S (count_range rs sr).
Proof.
  unfold count_range. rewrite List.filter_app, length_app; simpl.
  rewrite sr_eqb_refl; simpl. lia.
Qed.

Lemma AddScanRange_dup (c : Config) (sr : ScanRange) :
  existsb (fun e => sr_eqb e sr) (ScanRanges c) = true ->
  AddScanRange c sr = (set_ScanRanges c (ScanRanges c), false).
Proof.
  unfold AddScanRange, ScanRanges. intros H. now rewrite H.
Qed.

Lemma AddScanRange_new (c : Config) (sr : ScanRange) :
  existsb (fun e => sr_eqb e sr) (ScanRanges c) = false ->
  AddScanRange c sr = (set_ScanRanges c (ScanRanges c ++ [sr]), true).
Proof.
  unfold AddScanRange, ScanRanges. intros H. now rewrite H.
Qed.

Lemma ScanRanges_set (c : Config) (rs : list ScanRange) :
  rs <> [] -> ScanRanges (set_ScanRanges c rs) = rs.
Proof. unfold ScanRanges; simpl. destruct rs; congruence. Qed.

Lemma set_ScanRanges_twice (c : Config) (a b : list ScanRange) :
  set_ScanRanges (set_ScanRanges c a) b = set_ScanRanges c b.
Proof. reflexivity. Qed.

(** C8.  For a stored list in which the pair [(start,end)] of [sr] occurs
    at most once (the stored ranges form a set keyed by that pair; an
    empty stored list stands for the defaults), adding [sr] twice leaves
    exactly one range with that pair, and the second add is refused as a
    duplicate: it returns before [Save] and changes nothing. *)
Theorem AddScanRange_twice (c : Config) (sr : ScanRange) :
  (count_range (ScanRanges c) sr <= 1)%nat ->
  let c1 := fst (AddScanRange c sr) in
  AddScanRange c1 sr = (c1, false) /\
  count_range (ScanRanges c1) sr = 1%nat /\
  count_range (cfg_ScanRanges c1) sr = 1%nat.
Proof.
  intros Hle. cbv zeta.
  set (rs := ScanRanges c) in *.
  destruct (existsb (fun e => sr_eqb e sr) rs) eqn:E.
  - assert (Hc : count_range rs sr = 1%nat) by (apply existsb_count in E; lia).
    assert (Hne : rs <> []) by (intros Hn; rewrite Hn in Hc; discriminate).
    rewrite (AddScanRange_dup c sr E); cbn [fst]; fold rs.
    rewrite AddScanRange_dup; rewrite ScanRanges_set by exact Hne; auto.
  - assert (Hc : count_range rs sr = 0%nat).
    { destruct (count_range rs sr) eqn:H0; auto.
      assert (existsb (fun e => sr_eqb e sr) rs = true)
        by (apply existsb_count; lia). congruence. }
    assert (Hne : (rs ++ [sr])%list <> []) by (destruct rs; discriminate).
    assert (Ex : existsb (fun e => sr_eqb e sr) (rs ++ [sr])%list = true)
      by (apply existsb_count; rewrite count_range_app; lia).
    rewrite (AddScanRange_new c sr E); cbn [fst]; fold rs.
    assert (Ex' : existsb (fun e => sr_eqb e sr)
              (ScanRanges (set_ScanRanges c (rs ++ [sr])%list)) = true)
      by (rewrite ScanRanges_set by exact Hne; exact Ex).
    rewrite (AddScanRange_dup _ sr Ex').
    rewrite ScanRanges_set by exact Hne; simpl.
    rewrite count_range_app, Hc. auto.
Qed.

Lemma AddScanRange_twice_witness :
  let c := {| cfg_Mappings := []; cfg_ScanIntervalSec := 10;
              cfg_ScanRanges := []; cfg_ManualPorts := [] |} in
  let sr := {| sr_Start := 9000; sr_End := 9100 |} in
  (count_range (ScanRanges c) sr <= 1)%nat /\
  (let c1 := fst (AddScanRange c sr) in
   AddScanRange c1 sr = (c1, false) /\
   count_range (ScanRanges c1) sr = 1%nat /\
   count_range (cfg_ScanRanges c1) sr = 1%nat).
Proof.
  cbv zeta. split; [vm_compute; lia|].
  apply (AddScanRange_twice
    {| cfg_Mappings := []; cfg_ScanIntervalSec := 10;
       cfg_ScanRanges := []; cfg_ManualPorts := [] |}
    {| sr_Start := 9000; sr_End := 9100 |}).
  vm_compute; lia.
Defined.

(** C10.  POST /api/mappings answers 400 exactly when the normalised
    domain (trimmed, lower-cased, one trailing ".localhost" removed) is
    empty or "portgate" or the port is 0; otherwise the mapping with the
    normalised domain and the requested port, whatever its value, is
    stored (201, or 500 when persisting fails after the in-memory update).
    POST /api/ports and POST /api/scan-ranges instead answer 400 exactly
    outside 1..65535 (and for start > end). *)
Theorem post_mappings_validation (toLower : string -> string)
    (HtoLower : toLower "" = "") (save_ok : bool) (now : Z) (c : Config)
    (rq : MappingRequest) :
  let norm := TrimSuffix (toLower (TrimSpace (mr_Domain rq))) ".localhost" in
  (fst (post_mappings toLower save_ok now c (Some rq)) = 400%Z <->
     norm = "" \/ norm = "portgate" \/ mr_Port rq = 0%Z) /\
  (norm <> "" -> norm <> "portgate" -> mr_Port rq <> 0%Z ->
     post_mappings toLower save_ok now c (Some rq) =
     ((if save_ok then 201 else 500)%Z,
      AddMapping c {| dm_Domain := norm; dm_TargetPort := mr_Port rq;
                      dm_CreatedAt := now; dm_System := false |})) /\
  (forall pr : PortRequest, fst (post_ports save_ok c (Some pr)) = 400%Z <->
     (pr_Port pr < 1 \/ 65535 < pr_Port pr)%Z) /\
  (forall q : ScanRangeRequest, fst (post_scan_ranges save_ok c (Some q)) = 400%Z <->
     (srr_Start q < 1 \/ 65535 < srr_End q \/ srr_End q < srr_Start q)%Z).
Proof.
  cbv zeta. split; [|split; [|split]].
  - unfold post_mappings.
    destruct (String.eqb_spec (mr_Domain rq) "") as [D|D]; simpl.
    + rewrite D. change (TrimSpace "") with "". rewrite HtoLower. tauto.
    + destruct (Z.eqb_spec (mr_Port rq) 0) as [P|P]; simpl; [tauto|].
      set (n := TrimSuffix _ _).
      destruct (String.eqb_spec n "portgate") as [G|G]; simpl; [tauto|].
      destruct (String.eqb_spec n "") as [N|N]; simpl; [tauto|].
      split; [destruct save_ok; discriminate|tauto].
  - intros N G P. unfold post_mappings.
    destruct (String.eqb_spec (mr_Domain rq) "") as [D|D]; simpl.
    + exfalso. apply N. rewrite D. change (TrimSpace "") with "".
      rewrite HtoLower. reflexivity.
    + destruct (Z.eqb_spec (mr_Port rq) 0) as [P'|P']; [congruence|]; simpl.
      destruct (String.eqb_spec (TrimSuffix (toLower (TrimSpace (mr_Domain rq)))
                  ".localhost") "portgate"); [congruence|].
      destruct (String.eqb_spec (TrimSuffix (toLower (TrimSpace (mr_Domain rq)))
                  ".localhost") ""); [congruence|].
      reflexivity.
  - intros pr. unfold post_ports.
    destruct (Z.ltb_spec (pr_Port pr) 1), (Z.ltb_spec 65535 (pr_Port pr)); simpl;
      try (split; [intros _; lia|reflexivity]).
    split; [destruct save_ok; discriminate|lia].
  - intros q. unfold post_scan_ranges.
    destruct (Z.ltb_spec (srr_Start q) 1), (Z.ltb_spec 65535 (srr_End q)),
      (Z.ltb_spec (srr_End q) (srr_Start q)); simpl;
      try (split; [intros _; lia|reflexivity]).
    destruct (AddScanRange c _) as [c' saves].
    split; [destruct saves, save_ok; discriminate|lia].
Qed.

Lemma post_mappings_validation_witness :
  ascii_ToLower "" = "" /\
  (let c := {| cfg_Mappings := []; cfg_ScanIntervalSec := 10;
               cfg_ScanRanges := []; cfg_ManualPorts := [] |} in
   let rq := {| mr_Domain := " MyApp.localhost "; mr_Port := 70000 |} in
   let norm := TrimSuffix (ascii_ToLower (TrimSpace (mr_Domain rq))) ".localhost" in
   (fst (post_mappings ascii_ToLower true 0 c (Some rq)) = 400%Z <->
      norm = "" \/ norm = "portgate" \/ mr_Port rq = 0%Z) /\
   (norm <> "" -> norm <> "portgate" -> mr_Port rq <> 0%Z ->
      post_mappings ascii_ToLower true 0 c (Some rq) =
      ((if true then 201 else 500)%Z,
       AddMapping c {| dm_Domain := norm; dm_TargetPort := mr_Port rq;
                       dm_CreatedAt := 0; dm_System := false |})) /\
   (forall pr : PortRequest, fst (post_ports true c (Some pr)) = 400%Z <->
      (pr_Port pr < 1 \/ 65535 < pr_Port pr)%Z) /\
   (forall q : ScanRangeRequest, fst (post_scan_ranges true c (Some q)) = 400%Z <->
      (srr_Start q < 1 \/ 65535 < srr_End q \/ srr_End q < srr_Start q)%Z)).
Proof.
  split; [reflexivity|].
  exact (post_mappings_validation ascii_ToLower eq_refl true 0
    {| cfg_Mappings := []; cfg_ScanIntervalSec := 10;
       cfg_ScanRanges := []; cfg_ManualPorts := [] |}
    {| mr_Domain := " MyApp.localhost "; mr_Port := 70000 |}).
Defined.

Example post_mappings_70000 :
  post_mappings ascii_ToLower true 0
    {| cfg_Mappings := []; cfg_ScanIntervalSec := 10;
       cfg_ScanRanges := []; cfg_ManualPorts := [] |}
    (Some {| mr_Domain := " MyApp.localhost "; mr_Port := 70000 |})
  = (201%Z, {| cfg_Mappings := [{| dm_Domain := "myapp"; dm_TargetPort := 70000;
                                   dm_CreatedAt := 0; dm_System := false |}];
               cfg_ScanIntervalSec := 10; cfg_ScanRanges := [];
               cfg_ManualPorts := [] |}).
Proof. reflexivity. Qed.

End StoreFacts.

Module ScanFacts.
Import Scan.

(** The title the probe finds in a response body: the trimmed first
    [<title>] match, or "" without one. *)
Definition probe_title (rsp : HttpResponse) : string :=
  match find_title (limit_bytes (64 * 1024) (resp_Body rsp)) with
  | Some t => TrimSpace (string_of_list_ascii t)
  | None => ""
  end.

Lemma manual_entry_title (isOpen : Z -> bool) (httpGet : Z -> option HttpResponse)
    (now : Z) (mp : ManualPort) :
  isOpen (mp_Port mp) = true ->
  dp_Title (manual_entry isOpen httpGet now mp) =
  match httpGet (mp_Port mp) with
  | None => mp_Name mp
  | Some rsp =>
      if resp_BodyErr rsp then mp_Name mp
      else
        let t1 := match find_title (limit_bytes (64 * 1024) (resp_Body rsp)) with
                  | Some t => TrimSpace (string_of_list_ascii t)
                  | None => mp_Name mp
                  end in
        let t2 := if negb (String.eqb (resp_Server rsp) "") && String.eqb t1 ""
                  then resp_Server rsp else t1 in
        if String.eqb t2 "" && negb (String.eqb (mp_Name mp) "")
        then mp_Name mp else t2
  end.
Proof.
  intros Ho. unfold manual_entry.
  destruct (String.eqb_spec (mp_Name mp) "") as [N|N]; simpl; rewrite Ho;
    destruct (httpGet (mp_Port mp)) as [rsp|]; simpl;
    try (destruct (resp_BodyErr rsp)); simpl; rewrite ?N; simpl;
    try reflexivity;
    repeat match goal with
    | |- context [if ?b then _ else _] => destruct b eqn:?; simpl
    end; try reflexivity;
    repeat match goal with
    | H : String.eqb _ _ = true |- _ => apply String.eqb_eq in H
    | H : String.eqb _ _ = false |- _ => apply String.eqb_neq in H
    | H : (_ && _)%bool = true |- _ => apply andb_true_iff in H as [? ?]
    | H : negb _ = true |- _ => apply negb_true_iff in H
    end; congruence.
Qed.


(** C7 (amended).  For a manual port that is open when probed: a
    non-blank first [<title>] match gives the title, trimmed of
    surrounding white space; when the GET or the body read fails, or the
    response has neither a non-blank title nor a [Server] header, the
    configured name is the title; for a manual port without a configured
    name, a missing or blank title is replaced by the [Server] header. *)
Theorem manual_port_title (isOpen : Z -> bool)
    (httpGet : Z -> option HttpResponse) (now : Z) (mp : ManualPort) :
  isOpen (mp_Port mp) = true ->
  let title := dp_Title (manual_entry isOpen httpGet now mp) in
  (forall rsp, httpGet (mp_Port mp) = Some rsp -> resp_BodyErr rsp = false ->
     probe_title rsp <> "" -> title = probe_title rsp) /\
  ((httpGet (mp_Port mp) = None \/
    exists rsp, httpGet (mp_Port mp) = Some rsp /\ resp_BodyErr rsp = true) ->
     title = mp_Name mp) /\
  (forall rsp, httpGet (mp_Port mp) = Some rsp -> resp_BodyErr rsp = false ->
     probe_title rsp = "" -> resp_Server rsp = "" -> title = mp_Name mp) /\
  (forall rsp, httpGet (mp_Port mp) = Some rsp -> resp_BodyErr rsp = false ->
     probe_title rsp = "" -> mp_Name mp = "" -> title = resp_Server rsp).
Proof.
  intros Ho. cbv zeta. rewrite (manual_entry_title _ _ _ _ Ho).
  unfold probe_title.
  split; [|split; [|split]].
  - intros rsp G B T. rewrite G, B.
    destruct (find_title _) as [t|]; [|congruence].
    destruct (String.eqb_spec (TrimSpace (string_of_list_ascii t)) "");
      [congruence|].
    rewrite andb_false_r; simpl.
    destruct (String.eqb_spec (TrimSpace (string_of_list_ascii t)) "");
      [congruence|reflexivity].
  - intros [G|[rsp [G B]]]; rewrite G; [reflexivity|]. now rewrite B.
  - intros rsp G B T S. rewrite G, B, S. simpl.
    destruct (find_title _) as [t|].
    + rewrite T. simpl. destruct (String.eqb_spec (mp_Name mp) ""); simpl; auto.
    + destruct (String.eqb_spec (mp_Name mp) ""); simpl; auto.
  - intros rsp G B T N. rewrite G, B, N.
    destruct (find_title _) as [t|]; rewrite ?T; simpl;
      destruct (String.eqb_spec (resp_Server rsp) ""); simpl; auto;
      now rewrite andb_false_r.
Qed.

Lemma manual_port_title_witness :
  let isOpen := fun p : Z => Z.eqb p 9000 in
  let httpGet := fun _ : Z => Some {| resp_Body := byte_list "<TITLE> App </TITLE>";
                                     resp_BodyErr := false;
                                     resp_Server := "nginx" |} in
  let mp := {| mp_Port := 9000; mp_Name := "svc"; mp_Path := "" |} in
  isOpen (mp_Port mp) = true /\
  (let title := dp_Title (manual_entry isOpen httpGet 0 mp) in
   (forall rsp, httpGet (mp_Port mp) = Some rsp -> resp_BodyErr rsp = false ->
      probe_title rsp <> "" -> title = probe_title rsp) /\
   ((httpGet (mp_Port mp) = None \/
     exists rsp, httpGet (mp_Port mp) = Some rsp /\ resp_BodyErr rsp = true) ->
      title = mp_Name mp) /\
   (forall rsp, httpGet (mp_Port mp) = Some rsp -> resp_BodyErr rsp = false ->
      probe_title rsp = "" -> resp_Server rsp = "" -> title = mp_Name mp) /\
   (forall rsp, httpGet (mp_Port mp) = Some rsp -> resp_BodyErr rsp = false ->
      probe_title rsp = "" -> mp_Name mp = "" -> title = resp_Server rsp)).
Proof.
  split; [reflexivity|].
  exact (manual_port_title (fun p : Z => Z.eqb p 9000)
    (fun _ : Z => Some {| resp_Body := byte_list "<TITLE> App </TITLE>";
                         resp_BodyErr := false; resp_Server := "nginx" |})
    0 {| mp_Port := 9000; mp_Name := "svc"; mp_Path := "" |} eq_refl).
Defined.

(** C7 counterexample: the title is the tag's content with white space
    trimmed ("App"), not the content itself (" App "). *)
Lemma manual_port_title_trimmed_cex :
  let isOpen := fun p : Z => Z.eqb p 9000 in
  let httpGet := fun _ : Z => Some {| resp_Body := byte_list "<title> App </title>";
                                     resp_BodyErr := false;
                                     resp_Server := "" |} in
  let mp := {| mp_Port := 9000; mp_Name := "svc"; mp_Path := "" |} in
  find_title (byte_list "<title> App </title>") = Some (byte_list " App ") /\
  dp_Title (manual_entry isOpen httpGet 0 mp) = "App".
Proof. split; reflexivity. Qed.

(** With a configured name, a [Server] header is used when the body has
    a blank [<title>] but not when it has none. *)
Example manual_port_server_header_cases :
  let isOpen := fun p : Z => Z.eqb p 9000 in
  let get body := fun _ : Z => Some {| resp_Body := byte_list body;
                                      resp_BodyErr := false;
                                      resp_Server := "nginx" |} in
  let mp := {| mp_Port := 9000; mp_Name := "svc"; mp_Path := "" |} in
  dp_Title (manual_entry isOpen (get "<title>  </title>") 0 mp) = "nginx" /\
  dp_Title (manual_entry isOpen (get "no title") 0 mp) = "svc".
Proof. split; reflexivity. Qed.

Section Cycle.
Variable isOpen : Z -> bool.
Variable httpGet : Z -> option HttpResponse.
Variable now : Z.

Lemma probeHTTP_keeps (r : option HttpResponse) (d : DiscoveredPort) :
  dp_Port (probeHTTP r d) = dp_Port d /\
  dp_Source (probeHTTP r d) = dp_Source d /\
  dp_ExePath (probeHTTP r d) = dp_ExePath d.
Proof.
  unfold probeHTTP. destruct r as [rsp|]; [destruct (resp_BodyErr rsp)|];
    repeat split.
Qed.

Lemma scan_entry_fields (p : Z) :
  dp_Port (scan_entry httpGet now p) = p /\
  dp_Source (scan_entry httpGet now p) = "scan" /\
  dp_ExePath (scan_entry httpGet now p) = "".
Proof. unfold scan_entry. apply probeHTTP_keeps. Qed.

Lemma manual_entry_fields (mp : ManualPort) :
  dp_Port (manual_entry isOpen httpGet now mp) = mp_Port mp /\
  dp_Source (manual_entry isOpen httpGet now mp) = "manual" /\
  dp_ExePath (manual_entry isOpen httpGet now mp) = "".
Proof.
  unfold manual_entry.
  destruct (negb (String.eqb (mp_Name mp) "")), (isOpen (mp_Port mp)); simpl;
    try (repeat split; reflexivity);
  match goal with
  | |- context [probeHTTP ?r ?d] =>
      destruct (probeHTTP_keeps r d) as (P & S & X);
      destruct (String.eqb (dp_Title (probeHTTP r d)) "" && _); simpl;
      rewrite ?P, ?S, ?X; repeat split
  end.
Qed.

Lemma in_scan (c : Config) (d : DiscoveredPort) :
  In d (scan isOpen httpGet now c) ->
  (exists r p, In r (Store.ScanRanges c) /\
     In p (List.filter isOpen (range_ports r)) /\ d = scan_entry httpGet now p) \/
  (exists mp, In mp (Store.ManualPorts c) /\
     scanned isOpen (Store.ScanRanges c) (mp_Port mp) = false /\
     d = manual_entry isOpen httpGet now mp).
Proof.
  unfold scan, scan_ranges. intros H. apply in_app_or in H as [H|H].
  - left. apply in_flat_map in H as [r [Hr Hd]].
    apply in_map_iff in Hd as [p [Hp Hin]]. exists r, p. auto.
  - right. apply in_map_iff in H as [mp [Hmp Hin]].
    apply filter_In in Hin as [Hin Hs]. apply negb_true_iff in Hs.
    exists mp. auto.
Qed.

Lemma scanned_iff (ranges : list ScanRange) (p : Z) :
  scanned isOpen ranges p = true <->
  exists r, In r ranges /\ In p (List.filter isOpen (range_ports r)).
Proof.
  unfold scanned. rewrite existsb_exists. split.
  - intros [r [Hr He]]. apply existsb_exists in He as [q [Hq E]].
    apply Z.eqb_eq in E. subst q. eauto.
  - intros [r [Hr Hp]]. exists r. split; auto.
    apply existsb_exists. exists p. split; auto. apply Z.eqb_refl.
Qed.

Lemma NoDup_app_disj {A : Type} (l k : list A) :
  List.NoDup l -> List.NoDup k -> (forall x, In x l -> ~ In x k) -> List.NoDup (l ++ k).
Proof.
  induction l as [|a l IH]; simpl; intros Hl Hk Hd; auto.
  inversion Hl as [|? ? Ha Hl']; subst. constructor.
  - intros Hin. apply in_app_or in Hin as [Hin|Hin]; [contradiction|].
    exact (Hd a (or_introl eq_refl) Hin).
  - apply IH; [exact Hl'|exact Hk|intros x Hx; apply Hd; now right].
Qed.

Lemma NoDup_map_filter {A B : Type} (f : A -> B) (q : A -> bool) (l : list A) :
  List.NoDup (map f l) -> List.NoDup (map f (List.filter q l)).
Proof.
  induction l as [|a l IH]; simpl; intros H; auto.
  inversion H as [|? ? Ha Hl]; subst.
  destruct (q a); simpl; auto. constructor; auto.
  intros Hin. apply Ha. apply in_map_iff in Hin as [y [Hy Hin]].
  apply filter_In in Hin as [Hin _]. rewrite <- Hy. now apply in_map.
Qed.

Lemma scan_ranges_ports (ranges : list ScanRange) :
  map dp_Port (scan_ranges isOpen httpGet now ranges) =
  List.filter isOpen (flat_map range_ports ranges).
Proof.
  unfold scan_ranges. induction ranges as [|r rs IH]; simpl; auto.
  rewrite map_app, List.filter_app, IH, map_map. f_equal.
  rewrite <- (map_id (List.filter isOpen (range_ports r))) at 2.
  apply map_ext. intros p. apply scan_entry_fields.
Qed.

(** C2 (amended).  A port inside a configured range that is found open
    has an entry in the snapshot, and every entry for it has source
    "scan" (a manual entry for it is suppressed).  A manual port found
    closed (inside a configured range or not) is not suppressed: its
    entry built from the manual list is in the snapshot, and every entry
    for its port has source "manual".  When no port is covered by two
    configured ranges and the manual ports are distinct, the snapshot has
    at most one entry per port. *)
Theorem scan_scan_entry_wins (c : Config) :
  let snap := scan isOpen httpGet now c in
  (forall p, (exists r, In r (Store.ScanRanges c) /\ In p (range_ports r)) ->
     isOpen p = true ->
     (exists d, In d snap /\ dp_Port d = p) /\
     (forall d, In d snap -> dp_Port d = p -> dp_Source d = "scan")) /\
  (forall mp, In mp (Store.ManualPorts c) -> isOpen (mp_Port mp) = false ->
     In (manual_entry isOpen httpGet now mp) snap /\
     dp_Port (manual_entry isOpen httpGet now mp) = mp_Port mp /\
     (forall d, In d snap -> dp_Port d = mp_Port mp -> dp_Source d = "manual")) /\
  (List.NoDup (flat_map range_ports (Store.ScanRanges c)) ->
   List.NoDup (map mp_Port (Store.ManualPorts c)) ->
   List.NoDup (map dp_Port snap)).
Proof.
  cbv zeta. split; [|split].
  - intros p [r [Hr Hp]] Ho.
    assert (Hf : In p (List.filter isOpen (range_ports r)))
      by (apply filter_In; auto).
    split.
    + exists (scan_entry httpGet now p). split; [|apply scan_entry_fields].
      unfold scan, scan_ranges. apply in_or_app. left.
      apply in_flat_map. exists r. split; auto. now apply in_map.
    + intros d Hd Hdp. apply in_scan in Hd as [(r' & q & _ & _ & ->)|
                                              (mp & _ & Hs & ->)].
      * apply scan_entry_fields.
      * exfalso. destruct (manual_entry_fields mp) as [Pm _].
        rewrite Hdp in Pm. rewrite <- Pm in Hs.
        assert (scanned isOpen (Store.ScanRanges c) p = true)
          by (apply scanned_iff; eauto). congruence.
  - intros mp Hmp Hc.
    assert (Hs : scanned isOpen (Store.ScanRanges c) (mp_Port mp) = false).
    { destruct (scanned isOpen (Store.ScanRanges c) (mp_Port mp)) eqn:S; [|reflexivity].
      apply scanned_iff in S as [r [_ Hp]]. apply filter_In in Hp as [_ Ho]. congruence. }
    destruct (manual_entry_fields mp) as (Pm & Sm & _).
    split; [|split; [exact Pm|]].
    + unfold scan. apply in_or_app. right. apply in_map. apply filter_In.
      split; [exact Hmp|]. now rewrite Hs.
    + intros d Hd Hdp. apply in_scan in Hd as [(r' & q & _ & Hq & ->)|
                                              (mp' & _ & _ & ->)].
      * exfalso. destruct (scan_entry_fields q) as [Pq _]. rewrite Pq in Hdp. subst q.
        apply filter_In in Hq as [_ Ho]. congruence.
      * apply manual_entry_fields.
  - intros Hr Hm. unfold scan. rewrite map_app, scan_ranges_ports, map_map.
    rewrite (map_ext (fun x => dp_Port (manual_entry isOpen httpGet now x)) mp_Port)
      by (intros mp; apply manual_entry_fields).
    apply NoDup_app_disj.
    + now apply List.NoDup_filter.
    + now apply NoDup_map_filter.
    + intros x Hx Hin. apply in_map_iff in Hin as [mp [Hx' Hin]].
      apply filter_In in Hin as [_ Hs]. apply negb_true_iff in Hs.
      apply filter_In in Hx as [Hx Ho]. apply in_flat_map in Hx as [r [Hr' Hp]].
      assert (scanned isOpen (Store.ScanRanges c) (mp_Port mp) = true).
      { apply scanned_iff. exists r. split; auto. apply filter_In. subst x. auto. }
      congruence.
Qed.

End Cycle.

(** C2 (counterexample).  Port 3000 lies in the configured range
    3000-3001 and is a manual port named "web"; it is closed, so the scan
    does not record it and the snapshot's only entry for it comes from the
    manual list, with source "manual". *)
Lemma scan_closed_manual_port_cex :
  let c := {| cfg_Mappings := []; cfg_ScanIntervalSec := 10;
              cfg_ScanRanges := [{| sr_Start := 3000; sr_End := 3001 |}];
              cfg_ManualPorts := [{| mp_Port := 3000; mp_Name := "web";
                                     mp_Path := "" |}] |} in
  In 3000%Z (range_ports {| sr_Start := 3000; sr_End := 3001 |}) /\
  map (fun d => (dp_Port d, dp_Source d))
      (scan (fun _ => false) (fun _ => None) 0 c) = [(3000%Z, "manual")].
Proof. split; [simpl; auto|reflexivity]. Qed.

(** Ranges that overlap (AddScanRange only refuses an identical range)
    give an open port one entry per range covering it. *)
Example scan_overlapping_ranges :
  let c := {| cfg_Mappings := []; cfg_ScanIntervalSec := 10;
              cfg_ScanRanges := [{| sr_Start := 3000; sr_End := 3001 |};
                                 {| sr_Start := 3000; sr_End := 3000 |}];
              cfg_ManualPorts := [] |} in
  map dp_Port (scan (fun p => Z.eqb p 3000) (fun _ => None) 0 c) = [3000%Z; 3000%Z].
Proof. reflexivity. Qed.

End ScanFacts.

Module ResolverFacts.

(** A /proc with one process (pid 1234, /usr/bin/node) listening on
    port 3000 (0x0BB8) through socket inode 12345. *)
Definition node_fs : ProcFS := {|
  fs_ReadFile := fun path =>
    if String.eqb path "/proc/net/tcp" then
      Some ("  sl  local_address rem_address   st tx_queue rx_queue tr tm->when retrnsmt   uid  timeout inode" ++ String "010" "" ++
            "   0: 00000000:0BB8 00000000:0000 0A 00000000:00000000 00:00000000 00000000  1000        0 12345 1 0000000000000000 100 0 0 10 0" ++ String "010" "")
    else None;
  fs_ReadDir := fun path =>
    if String.eqb path "/proc" then
      Some [{| de_Name := "self"; de_IsDir := false |};
            {| de_Name := "1234"; de_IsDir := true |}]
    else if String.eqb path "/proc/1234/fd" then
      Some [{| de_Name := "0"; de_IsDir := false |};
            {| de_Name := "5"; de_IsDir := false |}]
    else None;
  fs_Readlink := fun path =>
    if String.eqb path "/proc/1234/fd/0" then Some "/dev/null"
    else if String.eqb path "/proc/1234/fd/5" then Some "socket:[12345]"
    else if String.eqb path "/proc/1234/exe" then Some "/usr/bin/node (deleted)"
    else None
|}.

Example node_fs_3000 : ResolverUnix.findExeByPort node_fs 3000 = "/usr/bin/node".
Proof. vm_compute. reflexivity. Qed.

Example node_fs_3001 : ResolverUnix.findExeByPort node_fs 3001 = "".
Proof. vm_compute. reflexivity. Qed.

Example netstat_8080 :
  ResolverWindows.findExeByPort
    (Some ("  TCP    0.0.0.0:80             0.0.0.0:0              LISTENING       4" ++ String "010" "" ++
           "  TCP    0.0.0.0:8080           0.0.0.0:0              LISTENING       7788" ++ String "010" ""))
    (fun pid => if Z.eqb pid 7788 then Some "C:\app.exe" else None) 8080
  = "C:\app.exe".
Proof. vm_compute. reflexivity. Qed.


Import ResolverUnix.

Lemma first_row_none (lines : list string) (port : Z) :
  (forall line, In line lines -> row_inode line port = None) ->
  first_row lines port = "".
Proof.
  induction lines as [|l ls IH]; simpl; intros H; auto.
  rewrite H by auto. apply IH. auto.
Qed.

Lemma find_fd_true (fs : ProcFS) (dir target : string) (fds : list DirEntry) :
  find_fd fs dir target fds = true -> exists path, fs_Readlink fs path = Some target.
Proof.
  induction fds as [|fd fds IH]; simpl; [discriminate|].
  destruct (fs_Readlink fs (dir ++ "/" ++ de_Name fd)) as [link|] eqn:E; auto.
  destruct (String.eqb_spec link target); subst; eauto.
Qed.

Lemma find_pid_found (fs : ProcFS) (target : string) (es : list DirEntry) :
  find_pid fs target es = "" \/ exists path, fs_Readlink fs path = Some target.
Proof.
  induction es as [|e es IH]; simpl; auto.
  destruct (de_IsDir e); simpl; auto.
  destruct (Atoi (de_Name e)); auto.
  destruct (fs_ReadDir fs (fd_dir (de_Name e))) as [fds|]; auto.
  destruct (find_fd fs (fd_dir (de_Name e)) target fds) eqn:F; auto.
  right. eapply find_fd_true; eauto.
Qed.

(** C9.  Both resolvers are total functions to strings.  Unix: the result
    is "" or the target (minus " (deleted)") of a /proc/<pid>/exe link; it
    is "" when no readable kernel table has a well-formed LISTEN row for
    the port (unreadable and malformed tables included), when /proc cannot
    be listed or no descriptor links to the socket, and when the exe link
    of the owning process cannot be read.  Windows: the result is "" or
    the queried image path; it is "" when netstat fails or lists no
    matching LISTENING line, and when the image query fails. *)
Theorem findExeByPort_fail_soft (fs : ProcFS) (netstat : option string)
    (imagePath : Z -> option string) (port : Z) :
  let r := ResolverUnix.findExeByPort fs port in
  let inode := findSocketInode fs port in
  ((r = "" \/ exists pid exe, fs_Readlink fs ("/proc/" ++ pid ++ "/exe") = Some exe /\
                             r = TrimSuffix exe " (deleted)") /\
   ((forall path data, fs_ReadFile fs path = Some data ->
       forall line, In line (tl (Split data "010"%char)) -> row_inode line port = None) ->
    r = "") /\
   (fs_ReadDir fs "/proc" = None -> r = "") /\
   ((forall path, fs_Readlink fs path <> Some ("socket:[" ++ inode ++ "]")) -> r = "") /\
   (fs_Readlink fs ("/proc/" ++ findPIDByInode fs inode ++ "/exe") = None -> r = "")) /\
  (let w := ResolverWindows.findExeByPort netstat imagePath port in
   let pid := ResolverWindows.findPIDByPort netstat port in
   (w = "" \/ exists p, imagePath p = Some w) /\
   (netstat = None -> w = "") /\
   (forall out, netstat = Some out ->
      (forall line, In line (Split out "010"%char) ->
         ResolverWindows.line_pid line port (ResolverWindows.needle_of port) = None) ->
      w = "") /\
   (imagePath pid = None -> w = "")).
Proof.
  cbv zeta. split.
  - unfold ResolverUnix.findExeByPort.
    split; [|split; [|split; [|split]]].
    + destruct (String.eqb (findSocketInode fs port) ""); auto.
      destruct (String.eqb (findPIDByInode fs (findSocketInode fs port)) ""); auto.
      destruct (fs_Readlink fs _) eqn:E; eauto.
    + intros H. assert (Hi : findSocketInode fs port = "").
      { unfold findSocketInode, findInodeInFile.
        assert (forall path, match fs_ReadFile fs path with
                             | Some data => first_row (tl (Split data "010"%char)) port
                             | None => "" end = "") as Hp.
        { intros path. destruct (fs_ReadFile fs path) eqn:E; auto.
          apply first_row_none. eapply H; eauto. }
        rewrite !Hp. reflexivity. }
      now rewrite Hi.
    + intros H. unfold findPIDByInode. rewrite H.
      destruct (String.eqb _ ""); reflexivity.
    + intros H. unfold findPIDByInode.
      destruct (String.eqb (findSocketInode fs port) ""); auto.
      destruct (fs_ReadDir fs "/proc") as [es|]; simpl; auto.
      destruct (find_pid_found fs ("socket:[" ++ findSocketInode fs port ++ "]") es)
        as [E|[path E]]; [now rewrite E|]. exfalso. exact (H path E).
    + intros H. rewrite H.
      destruct (String.eqb _ ""); auto. destruct (String.eqb _ ""); auto.
  - unfold ResolverWindows.findExeByPort.
    split; [|split; [|split]].
    + destruct (Z.eqb _ 0); auto.
      destruct (imagePath _) eqn:E; eauto.
    + intros ->. reflexivity.
    + intros out -> H. unfold ResolverWindows.findPIDByPort.
      assert (ResolverWindows.first_pid (Split out "010"%char) port
                (ResolverWindows.needle_of port) = 0%Z) as ->.
      { induction (Split out "010"%char) as [|l ls IH]; simpl; auto.
        rewrite H by (left; reflexivity). apply IH. intros; apply H; now right. }
      reflexivity.
    + intros H. rewrite H. destruct (Z.eqb _ 0); reflexivity.
Qed.

(** C3.  No entry of a scan snapshot carries an executable path: [scan]
    never calls [findExeByPort].  With the /proc of [node_fs], the
    resolver finds "/usr/bin/node" for port 3000, yet a scan of 3000-3000
    with 3000 open records an empty exePath for it. *)
Theorem scan_exe_path_empty (isOpen : Z -> bool)
    (httpGet : Z -> option HttpResponse) (now : Z) (c : Config) :
  Forall (fun d => dp_ExePath d = "") (Scan.scan isOpen httpGet now c) /\
  (ResolverUnix.findExeByPort node_fs 3000 = "/usr/bin/node" /\
   map (fun d => (dp_Port d, dp_ExePath d))
       (Scan.scan (fun p => Z.eqb p 3000) (fun _ => None) 0
          {| cfg_Mappings := []; cfg_ScanIntervalSec := 10;
             cfg_ScanRanges := [{| sr_Start := 3000; sr_End := 3000 |}];
             cfg_ManualPorts := [] |}) = [(3000%Z, "")]).
Proof.
  split; [|split; reflexivity].
  apply List.Forall_forall. intros d Hd.
  apply ScanFacts.in_scan in Hd as [(r & p & _ & _ & ->)|(mp & _ & _ & ->)].
  - apply ScanFacts.scan_entry_fields.
  - apply ScanFacts.manual_entry_fields.
Qed.

End ResolverFacts.

Module HubFacts.
Import HubRun.

Lemma broadcast_loop_spec (msg : string) (cs : list nat) (h : Hub) :
  NoDup cs ->
  (forall c, c ∈ cs -> exists ch, sends h !! c = Some ch /\ ch_closed ch = false) ->
  exists h', broadcast_loop msg cs h = Some h' /\
    (forall c ch, c ∈ cs -> sends h !! c = Some ch ->
       if Nat.ltb (length (ch_buf ch)) sendCap
       then sends h' !! c = Some (mkChan (ch_buf ch ++ [msg]) false) /\
            (c ∈ clients h' <-> c ∈ clients h)
       else sends h' !! c = Some (mkChan (ch_buf ch) true) /\ c ∉ clients h') /\
    (forall c, c ∉ cs -> sends h' !! c = sends h !! c /\
       (c ∈ clients h' <-> c ∈ clients h)).
Proof.
  revert h. induction cs as [|c cs IH]; intros h Hnd Hopen.
  - exists h. split; [reflexivity|]. split.
    + intros c ch Hc. apply elem_of_nil in Hc. contradiction.
    + intros c _. split; reflexivity.
  - apply NoDup_cons in Hnd as [Hc Hnd].
    destruct (Hopen c (proj2 (elem_of_cons cs c c) (or_introl eq_refl))) as [ch [Hch Hcl]].
    simpl. rewrite Hch, Hcl.
    destruct (Nat.ltb (length (ch_buf ch)) sendCap) eqn:Hlt.
    + set (h1 := mkHub (clients h) (<[c := mkChan (ch_buf ch ++ [msg]) false]> (sends h))).
      assert (Hsame : forall c', c' ∈ cs -> sends h1 !! c' = sends h !! c').
      { intros c' Hc'. simpl. rewrite lookup_insert_ne; [reflexivity|].
        intros ->. contradiction. }
      destruct (IH h1 Hnd) as (h' & Hrun & Hin & Hout).
      { intros c' Hc'. rewrite Hsame by exact Hc'. apply Hopen. now right. }
      exists h'. split; [exact Hrun|]. split.
      * intros c' ch' Hc' Hl. apply elem_of_cons in Hc' as [->|Hc'].
        -- rewrite Hch in Hl. injection Hl as <-. rewrite Hlt.
           destruct (Hout c Hc) as [E M]. rewrite E. simpl.
           rewrite lookup_insert_eq. split; [reflexivity|exact M].
        -- specialize (Hin c' ch' Hc'). rewrite Hsame in Hin by exact Hc'.
           exact (Hin Hl).
      * intros c' Hc'. rewrite elem_of_cons in Hc'.
        destruct (Hout c' (fun H => Hc' (or_intror H))) as [E M].
        rewrite E. simpl. rewrite lookup_insert_ne by (intros ->; apply Hc'; now left).
        split; [reflexivity|exact M].
    + set (h1 := mkHub (clients h ∖ {[c]}) (<[c := mkChan (ch_buf ch) true]> (sends h))).
      assert (Hsame : forall c', c' ∈ cs -> sends h1 !! c' = sends h !! c' /\
                                   (c' ∈ clients h1 <-> c' ∈ clients h)).
      { intros c' Hc'. assert (c' <> c) by (intros ->; contradiction).
        simpl. rewrite lookup_insert_ne by congruence. split; [reflexivity|].
        rewrite elem_of_difference, elem_of_singleton. tauto. }
      destruct (IH h1 Hnd) as (h' & Hrun & Hin & Hout).
      { intros c' Hc'. rewrite (proj1 (Hsame c' Hc')). apply Hopen. now right. }
      exists h'. split; [exact Hrun|]. split.
      * intros c' ch' Hc' Hl. apply elem_of_cons in Hc' as [->|Hc'].
        -- rewrite Hch in Hl. injection Hl as <-. rewrite Hlt.
           destruct (Hout c Hc) as [E M]. rewrite E, M. simpl.
           rewrite lookup_insert_eq, elem_of_difference, elem_of_singleton. split; [reflexivity|tauto].
        -- specialize (Hin c' ch' Hc'). destruct (Hsame c' Hc') as [E M].
           rewrite E in Hin. specialize (Hin Hl).
           destruct (Nat.ltb (length (ch_buf ch')) sendCap); [|exact Hin].
           destruct Hin as [E1 M1]. split; [exact E1|rewrite M1; exact M].
      * intros c' Hc'. rewrite elem_of_cons in Hc'.
        assert (c' <> c) by (intros ->; apply Hc'; now left).
        destruct (Hout c' (fun H => Hc' (or_intror H))) as [E M].
        rewrite E, M. simpl. rewrite lookup_insert_ne by congruence.
        rewrite elem_of_difference, elem_of_singleton. split; [reflexivity|tauto].
Qed.

(** Two subscribers: client 1's queue is full (a stalled reader), client
    2's is empty (a reader that keeps up). *)
Definition stalled_hub : Hub :=
  mkHub {[1; 2]}
        (<[1 := mkChan (repeat "old" sendCap) false]>
           (<[2 := mkChan [] false]> ∅)).

(** C6.  When every registered client's [send] channel is open (as
    [register]/[unregister] keep it), one broadcast step of [Hub.Run]
    always completes (it never blocks or panics) and yields a hub where
    every registered client whose queue had room has the message appended
    and stays registered, every registered client whose queue was full
    has its channel closed and is no longer registered, no one else
    joins, unregistered clients' channels are untouched, and every client
    still registered has an open channel. *)
Theorem broadcast_drops_full_queues (msg : string) (h : Hub) :
  (forall c, c ∈ clients h -> exists ch, sends h !! c = Some ch /\ ch_closed ch = false) ->
  exists h', broadcast msg h = Some h' /\
    (forall c ch, c ∈ clients h -> sends h !! c = Some ch ->
       length (ch_buf ch) < sendCap ->
       c ∈ clients h' /\ sends h' !! c = Some (mkChan (ch_buf ch ++ [msg]) false)) /\
    (forall c ch, c ∈ clients h -> sends h !! c = Some ch ->
       sendCap <= length (ch_buf ch) ->
       (c ∉ clients h') /\ sends h' !! c = Some (mkChan (ch_buf ch) true)) /\
    (forall c, c ∉ clients h -> (c ∉ clients h') /\ sends h' !! c = sends h !! c) /\
    (forall c, c ∈ clients h' -> exists ch, sends h' !! c = Some ch /\ ch_closed ch = false).
Proof.
  intros Hopen. unfold broadcast.
  destruct (broadcast_loop_spec msg (elements (clients h)) h (NoDup_elements _))
    as (h' & Hrun & Hin & Hout).
  { intros c Hc. apply Hopen. now apply elem_of_elements in Hc. }
  exists h'. split; [exact Hrun|].
  assert (Hout' : forall c, c ∉ clients h -> (c ∉ clients h') /\ sends h' !! c = sends h !! c).
  { intros c Hc. destruct (Hout c) as [E M].
    - now rewrite elem_of_elements.
    - split; [now rewrite M|exact E]. }
  split; [|split; [|split]].
  - intros c ch Hc Hl Hlt. apply elem_of_elements in Hc as Hc'.
    specialize (Hin c ch Hc' Hl). apply Nat.ltb_lt in Hlt. rewrite Hlt in Hin.
    destruct Hin as [E M]. split; [now apply M|exact E].
  - intros c ch Hc Hl Hge. apply elem_of_elements in Hc as Hc'.
    specialize (Hin c ch Hc' Hl). apply Nat.ltb_ge in Hge. rewrite Hge in Hin.
    destruct Hin as [E M]. split; [exact M|exact E].
  - exact Hout'.
  - intros c Hc. destruct (decide (c ∈ clients h)) as [Hm|Hm].
    + destruct (Hopen c Hm) as [ch [Hl _]].
      apply elem_of_elements in Hm as Hm'.
      specialize (Hin c ch Hm' Hl).
      destruct (Nat.ltb _ _); destruct Hin as [E M].
      * exists (mkChan (ch_buf ch ++ [msg]) false). split; [exact E|reflexivity].
      * contradiction.
    + exfalso. exact (proj1 (Hout' c Hm) Hc).
Qed.

(** The stalled client 1 is dropped while client 2 gets the update; a
    second broadcast reaches client 2 again. *)
Lemma broadcast_drops_full_queues_witness :
  (forall c, c ∈ clients stalled_hub ->
     exists ch, sends stalled_hub !! c = Some ch /\ ch_closed ch = false) /\
  exists h', broadcast "ports" stalled_hub = Some h' /\
    (forall c ch, c ∈ clients stalled_hub -> sends stalled_hub !! c = Some ch ->
       length (ch_buf ch) < sendCap ->
       c ∈ clients h' /\ sends h' !! c = Some (mkChan (ch_buf ch ++ ["ports"]) false)) /\
    (forall c ch, c ∈ clients stalled_hub -> sends stalled_hub !! c = Some ch ->
       sendCap <= length (ch_buf ch) ->
       (c ∉ clients h') /\ sends h' !! c = Some (mkChan (ch_buf ch) true)) /\
    (forall c, c ∉ clients stalled_hub -> (c ∉ clients h') /\ sends h' !! c = sends stalled_hub !! c) /\
    (forall c, c ∈ clients h' -> exists ch, sends h' !! c = Some ch /\ ch_closed ch = false).
Proof.
  assert (H : forall c, c ∈ clients stalled_hub ->
     exists ch, sends stalled_hub !! c = Some ch /\ ch_closed ch = false).
  { intros c Hc. unfold stalled_hub in Hc; simpl in Hc.
    apply elem_of_union in Hc as [Hc|Hc]; apply elem_of_singleton in Hc as ->;
      eexists; split; reflexivity. }
  split; [exact H|]. apply (broadcast_drops_full_queues "ports" stalled_hub). exact H.
Defined.

Example stalled_client_scenario :
  match broadcast "a" stalled_hub with
  | Some h1 =>
      (* client 2 drains its queue, then another update is broadcast *)
      let h1' := mkHub (clients h1) (<[2 := mkChan [] false]> (sends h1)) in
      match broadcast "b" h1' with
      | Some h2 =>
          elements (clients h1) = [2] /\ (sends h1 !! 2) = Some (mkChan ["a"] false) /\
          option_map ch_closed (sends h1 !! 1) = Some true /\
          elements (clients h2) = [2] /\ (sends h2 !! 2) = Some (mkChan ["b"] false)
      | None => False
      end
  | None => False
  end.
Proof. vm_compute. repeat split. Qed.

End HubFacts.

Module StoreExtra.
Import Store.

Lemma LookupPort_filter_same (l : list DomainMapping) (d : string) :
  Proxy.LookupPort l d =
  Proxy.LookupPort (List.filter (fun e => String.eqb (dm_Domain e) d) l) d.
Proof.
  induction l as [|e l IH]; simpl; auto.
  destruct (String.eqb (dm_Domain e) d) eqn:E; simpl; rewrite ?E; auto.
Qed.

Lemma LookupPort_removed (l : list DomainMapping) (d : string) :
  Proxy.LookupPort (List.filter (fun e => negb (String.eqb (dm_Domain e) d)) l) d = 0%Z.
Proof.
  induction l as [|e l IH]; simpl; auto.
  destruct (String.eqb (dm_Domain e) d) eqn:E; simpl; auto. now rewrite E.
Qed.

(** X1.  [RemoveMapping c d] leaves no mapping for [d] ([LookupPort]
    returns 0), keeps every other domain's entries and lookups as they
    were, and touches neither the scan ranges nor the manual ports. *)
Theorem RemoveMapping_spec (c : Config) (d : string) :
  let c' := RemoveMapping c d in
  Proxy.LookupPort (cfg_Mappings c') d = 0%Z /\
  (forall d', d' <> d ->
     List.filter (fun e => String.eqb (dm_Domain e) d') (cfg_Mappings c') =
     List.filter (fun e => String.eqb (dm_Domain e) d') (cfg_Mappings c) /\
     Proxy.LookupPort (cfg_Mappings c') d' = Proxy.LookupPort (cfg_Mappings c) d') /\
  ScanRanges c' = ScanRanges c /\ ManualPorts c' = ManualPorts c.
Proof.
  cbv zeta. unfold RemoveMapping, set_Mappings; simpl.
  split; [apply LookupPort_removed|]. split; [|split; reflexivity].
  intros d' Hd.
  assert (F : List.filter (fun e => String.eqb (dm_Domain e) d')
                (List.filter (fun e => negb (String.eqb (dm_Domain e) d)) (cfg_Mappings c)) =
              List.filter (fun e => String.eqb (dm_Domain e) d') (cfg_Mappings c)).
  { apply StoreFacts.filter_other_domain. congruence. }
  split; [exact F|]. now rewrite LookupPort_filter_same, F, <- LookupPort_filter_same.
Qed.

Lemma filter_filter_same {A : Type} (f : A -> bool) (l : list A) :
  List.filter f (List.filter f l) = List.filter f l.
Proof.
  induction l as [|a l IH]; simpl; auto.
  destruct (f a) eqn:E; simpl; rewrite ?E, IH; auto.
Qed.

(** X2.  Adding a mapping and then removing its domain gives the same
    configuration as removing the domain alone: the add leaves no trace. *)
Theorem AddMapping_RemoveMapping (c : Config) (m : DomainMapping) :
  RemoveMapping (AddMapping c m) (dm_Domain m) = RemoveMapping c (dm_Domain m).
Proof.
  unfold RemoveMapping, AddMapping, set_Mappings; simpl.
  rewrite List.filter_app, filter_filter_same. simpl.
  rewrite String.eqb_refl. simpl. now rewrite app_nil_r.
Qed.

Lemma NoDup_map_filter_keep {A B : Type} (f : A -> B) (q : A -> bool) (l : list A) :
  List.NoDup (map f l) -> List.NoDup (map f (List.filter q l)).
Proof. apply ScanFacts.NoDup_map_filter. Qed.

Lemma NoDup_map_filter_snoc {A B : Type} (f : A -> B) (eqb : B -> B -> bool)
    (Heq : forall x y, eqb x y = true <-> x = y) (l : list A) (a : A) :
  List.NoDup (map f l) ->
  List.NoDup (map f (List.filter (fun e => negb (eqb (f e) (f a))) l ++ [a])).
Proof.
  intros H. rewrite map_app. apply ScanFacts.NoDup_app_disj.
  - now apply NoDup_map_filter_keep.
  - simpl. constructor; [intros []|constructor].
  - intros x Hx [Hy|[]]. subst x. apply in_map_iff in Hx as [e [He Hin]].
    apply filter_In in Hin as [_ Hn]. apply negb_true_iff in Hn.
    rewrite He in Hn. assert (eqb (f a) (f a) = true) by (now apply Heq).
    congruence.
Qed.

(** X3.  The store keeps at most one mapping per domain: if the domains
    are distinct before [AddMapping] or [RemoveMapping], they are after. *)
Theorem mapping_domains_distinct (c : Config) (m : DomainMapping) (d : string) :
  List.NoDup (map dm_Domain (cfg_Mappings c)) ->
  List.NoDup (map dm_Domain (cfg_Mappings (AddMapping c m))) /\
  List.NoDup (map dm_Domain (cfg_Mappings (RemoveMapping c d))).
Proof.
  intros H. split.
  - apply (NoDup_map_filter_snoc dm_Domain String.eqb String.eqb_eq); exact H.
  - now apply NoDup_map_filter_keep.
Qed.

Lemma mapping_domains_distinct_witness :
  let c := {| cfg_Mappings := [{| dm_Domain := "api"; dm_TargetPort := 3000;
                                  dm_CreatedAt := 0; dm_System := false |}];
              cfg_ScanIntervalSec := 10; cfg_ScanRanges := []; cfg_ManualPorts := [] |} in
  let m := {| dm_Domain := "api"; dm_TargetPort := 3001; dm_CreatedAt := 1;
              dm_System := false |} in
  List.NoDup (map dm_Domain (cfg_Mappings c)) /\
  List.NoDup (map dm_Domain (cfg_Mappings (AddMapping c m))) /\
  List.NoDup (map dm_Domain (cfg_Mappings (RemoveMapping c "web"))).
Proof.
  cbv zeta. assert (H : List.NoDup (map dm_Domain
    [{| dm_Domain := "api"; dm_TargetPort := 3000; dm_CreatedAt := 0; dm_System := false |}]))
    by (repeat constructor; simpl; tauto).
  split; [exact H|]. apply (mapping_domains_distinct _ _ "web"). exact H.
Defined.

Lemma sr_eqb_eq (a b : ScanRange) : sr_eqb a b = true <-> a = b.
Proof.
  destruct a as [s1 e1], b as [s2 e2]. unfold sr_eqb; simpl.
  rewrite andb_true_iff, !Z.eqb_eq. split.
  - intros [-> ->]. reflexivity.
  - intros H. injection H as -> ->. auto.
Qed.

Lemma ScanRanges_nonempty (c : Config) : ScanRanges c <> [].
Proof. unfold ScanRanges. destruct (cfg_ScanRanges c); discriminate. Qed.

Lemma ScanRanges_eff (c : Config) :
  (match cfg_ScanRanges c with [] => DefaultScanRanges | rs => rs end) = ScanRanges c.
Proof. reflexivity. Qed.

(* The effective ranges after [RemoveScanRange]: the old effective
   ranges without [sr], or the defaults when none is left. *)
Lemma RemoveScanRange_eff (c : Config) (sr : ScanRange) :
  ScanRanges (RemoveScanRange c sr) =
  match List.filter (fun e => negb (sr_eqb e sr)) (ScanRanges c) with
  | [] => DefaultScanRanges
  | rs => rs
  end /\
  (~ In sr (ScanRanges (RemoveScanRange c sr)) \/
   ScanRanges (RemoveScanRange c sr) = DefaultScanRanges).
Proof.
  assert (E : ScanRanges (RemoveScanRange c sr) =
    match List.filter (fun e => negb (sr_eqb e sr)) (ScanRanges c) with
    | [] => DefaultScanRanges | rs => rs end) by reflexivity.
  split; [exact E|]. rewrite E.
  destruct (List.filter (fun e => negb (sr_eqb e sr)) (ScanRanges c)) as [|x l] eqn:F;
    [now right|left].
  rewrite <- F. intros Hin. apply filter_In in Hin as [_ Hn].
  apply negb_true_iff in Hn. assert (sr_eqb sr sr = true) by (now apply sr_eqb_eq).
  congruence.
Qed.

Lemma filter_not_in {A : Type} (q : A -> bool) (l : list A) :
  (forall x, In x l -> q x = true) -> List.filter q l = l.
Proof.
  induction l as [|a l IH]; simpl; intros H; auto.
  rewrite H by auto. f_equal. apply IH. auto.
Qed.

(** X5.  Adding a range that is not yet effective appends it to the
    effective ranges, and removing it again restores them exactly. *)
Theorem AddScanRange_RemoveScanRange (c : Config) (sr : ScanRange) :
  ~ In sr (ScanRanges c) ->
  ScanRanges (fst (AddScanRange c sr)) = (ScanRanges c ++ [sr])%list /\
  ScanRanges (RemoveScanRange (fst (AddScanRange c sr)) sr) = ScanRanges c.
Proof.
  intros Hn.
  assert (Hx : existsb (fun e => sr_eqb e sr) (ScanRanges c) = false).
  { apply Bool.not_true_iff_false. intros Hex. apply existsb_exists in Hex as [e [He Eq]].
    apply sr_eqb_eq in Eq. subst e. contradiction. }
  assert (A : ScanRanges (fst (AddScanRange c sr)) = (ScanRanges c ++ [sr])%list).
  { unfold AddScanRange. rewrite ScanRanges_eff, Hx. simpl.
    unfold ScanRanges at 1; simpl. destruct (ScanRanges c); reflexivity. }
  split; [exact A|].
  destruct (RemoveScanRange_eff (fst (AddScanRange c sr)) sr) as [E _].
  rewrite E, A, List.filter_app. simpl.
  assert (sr_eqb sr sr = true) as -> by (now apply sr_eqb_eq). simpl.
  rewrite app_nil_r, filter_not_in.
  - destruct (ScanRanges c) eqn:S; [exfalso; exact (ScanRanges_nonempty c S)|reflexivity].
  - intros x Hxin. apply negb_true_iff. apply Bool.not_true_iff_false.
    intros Eq. apply sr_eqb_eq in Eq. subst x. contradiction.
Qed.

Lemma AddScanRange_RemoveScanRange_witness :
  let c := {| cfg_Mappings := []; cfg_ScanIntervalSec := 10;
              cfg_ScanRanges := []; cfg_ManualPorts := [] |} in
  let sr := {| sr_Start := 9000; sr_End := 9999 |} in
  ~ In sr (ScanRanges c) /\
  ScanRanges (fst (AddScanRange c sr)) = (ScanRanges c ++ [sr])%list /\
  ScanRanges (RemoveScanRange (fst (AddScanRange c sr)) sr) = ScanRanges c.
Proof.
  cbv zeta.
  assert (H : ~ In {| sr_Start := 9000; sr_End := 9999 |}
                 (ScanRanges {| cfg_Mappings := []; cfg_ScanIntervalSec := 10;
                                cfg_ScanRanges := []; cfg_ManualPorts := [] |})).
  { simpl. intros Hin. repeat destruct Hin as [Hin|Hin]; try injection Hin; lia. }
  split; [exact H|]. apply AddScanRange_RemoveScanRange. exact H.
Defined.

Lemma DefaultScanRanges_NoDup : List.NoDup DefaultScanRanges.
Proof.
  unfold DefaultScanRanges.
  repeat constructor; simpl; intros Hin; repeat destruct Hin as [Hin|Hin];
    try injection Hin; lia.
Qed.

Lemma NoDup_filter_snoc {A : Type} (eqb : A -> A -> bool)
    (Heq : forall x y, eqb x y = true <-> x = y) (l : list A) (a : A) :
  List.NoDup l -> ~ In a l -> List.NoDup (l ++ [a]).
Proof.
  intros H Hn. apply ScanFacts.NoDup_app_disj; [exact H|repeat constructor; intros []|].
  intros x Hx [->|[]]. contradiction.
Qed.

(** X6.  The effective scan ranges never hold the same range twice: the
    defaults are distinct, and [AddScanRange] and [RemoveScanRange] keep
    distinct ranges distinct. *)
Theorem scan_ranges_distinct (c : Config) (sr : ScanRange) :
  List.NoDup (ScanRanges c) ->
  List.NoDup (ScanRanges (fst (AddScanRange c sr))) /\
  List.NoDup (ScanRanges (RemoveScanRange c sr)).
Proof.
  intros H. split.
  - unfold AddScanRange. rewrite ScanRanges_eff.
    destruct (existsb (fun e => sr_eqb e sr) (ScanRanges c)) eqn:Ex; simpl.
    + unfold ScanRanges at 1; simpl.
      destruct (ScanRanges c) eqn:S; [exfalso; exact (ScanRanges_nonempty c S)|exact H].
    + unfold ScanRanges at 1; simpl.
      assert (Hn : ~ In sr (ScanRanges c)).
      { intros Hin. assert (existsb (fun e => sr_eqb e sr) (ScanRanges c) = true)
          by (apply existsb_exists; exists sr; split; [exact Hin|now apply sr_eqb_eq]).
        congruence. }
      destruct (ScanRanges c) as [|x l] eqn:S; [exfalso; exact (ScanRanges_nonempty c S)|].
      simpl. change (List.NoDup ((x :: l) ++ [sr])%list).
      exact (NoDup_filter_snoc sr_eqb sr_eqb_eq (x :: l) sr H Hn).
  - destruct (RemoveScanRange_eff c sr) as [E _]. rewrite E.
    destruct (List.filter (fun e => negb (sr_eqb e sr)) (ScanRanges c)) eqn:F.
    + exact DefaultScanRanges_NoDup.
    + rewrite <- F. now apply List.NoDup_filter.
Qed.

Lemma scan_ranges_distinct_witness :
  let c := {| cfg_Mappings := []; cfg_ScanIntervalSec := 10;
              cfg_ScanRanges := []; cfg_ManualPorts := [] |} in
  let sr := {| sr_Start := 3000; sr_End := 3999 |} in
  List.NoDup (ScanRanges c) /\
  List.NoDup (ScanRanges (fst (AddScanRange c sr))) /\
  List.NoDup (ScanRanges (RemoveScanRange c sr)).
Proof.
  cbv zeta. split; [exact DefaultScanRanges_NoDup|].
  apply scan_ranges_distinct. exact DefaultScanRanges_NoDup.
Defined.

Lemma filter_port_removed (l : list ManualPort) (p : Z) :
  List.filter (fun e => Z.eqb (mp_Port e) p)
    (List.filter (fun e => negb (Z.eqb (mp_Port e) p)) l) = [].
Proof.
  induction l as [|e l IH]; simpl; auto.
  destruct (Z.eqb (mp_Port e) p) eqn:E; simpl; rewrite ?E; auto.
Qed.

Lemma filter_port_other (l : list ManualPort) (p q : Z) :
  q <> p ->
  List.filter (fun e => Z.eqb (mp_Port e) q)
    (List.filter (fun e => negb (Z.eqb (mp_Port e) p)) l) =
  List.filter (fun e => Z.eqb (mp_Port e) q) l.
Proof.
  intros Hq. induction l as [|e l IH]; simpl; auto.
  destruct (Z.eqb_spec (mp_Port e) p) as [E|E]; simpl.
  - rewrite IH. destruct (Z.eqb_spec (mp_Port e) q); [lia|reflexivity].
  - destruct (Z.eqb (mp_Port e) q); now rewrite IH.
Qed.

(** X7.  [AddManualPort c mp] leaves exactly one manual entry for
    [mp]'s port, [mp] itself (name and path replaced), and
    [RemoveManualPort c p] leaves none for [p]; both keep the entries of
    every other port, in order. *)
Theorem ManualPort_replace_remove (c : Config) (mp : ManualPort) (p : Z) :
  List.filter (fun e => Z.eqb (mp_Port e) (mp_Port mp))
    (ManualPorts (AddManualPort c mp)) = [mp] /\
  List.filter (fun e => Z.eqb (mp_Port e) p)
    (ManualPorts (RemoveManualPort c p)) = [] /\
  (forall q, q <> mp_Port mp ->
     List.filter (fun e => Z.eqb (mp_Port e) q) (ManualPorts (AddManualPort c mp)) =
     List.filter (fun e => Z.eqb (mp_Port e) q) (ManualPorts c)) /\
  (forall q, q <> p ->
     List.filter (fun e => Z.eqb (mp_Port e) q) (ManualPorts (RemoveManualPort c p)) =
     List.filter (fun e => Z.eqb (mp_Port e) q) (ManualPorts c)).
Proof.
  unfold ManualPorts, AddManualPort, RemoveManualPort, set_ManualPorts; simpl.
  split; [|split; [|split]].
  - rewrite List.filter_app, filter_port_removed. simpl. now rewrite Z.eqb_refl.
  - apply filter_port_removed.
  - intros q Hq. rewrite List.filter_app, filter_port_other by exact Hq. simpl.
    destruct (Z.eqb_spec (mp_Port mp) q); [lia|apply app_nil_r].
  - intros q Hq. now apply filter_port_other.
Qed.

(** X8.  The store keeps manual ports distinct: if no port is listed
    twice before [AddManualPort] or [RemoveManualPort], none is after. *)
Theorem manual_ports_distinct (c : Config) (mp : ManualPort) (p : Z) :
  List.NoDup (map mp_Port (ManualPorts c)) ->
  List.NoDup (map mp_Port (ManualPorts (AddManualPort c mp))) /\
  List.NoDup (map mp_Port (ManualPorts (RemoveManualPort c p))).
Proof.
  intros H. split.
  - apply (NoDup_map_filter_snoc mp_Port Z.eqb Z.eqb_eq); exact H.
  - now apply NoDup_map_filter_keep.
Qed.

Lemma manual_ports_distinct_witness :
  let c := {| cfg_Mappings := []; cfg_ScanIntervalSec := 10; cfg_ScanRanges := [];
              cfg_ManualPorts := [{| mp_Port := 9000; mp_Name := "a"; mp_Path := "" |}] |} in
  let mp := {| mp_Port := 9000; mp_Name := "b"; mp_Path := "" |} in
  List.NoDup (map mp_Port (ManualPorts c)) /\
  List.NoDup (map mp_Port (ManualPorts (AddManualPort c mp))) /\
  List.NoDup (map mp_Port (ManualPorts (RemoveManualPort c 9000))).
Proof.
  cbv zeta.
  assert (H : List.NoDup (map mp_Port [{| mp_Port := 9000; mp_Name := "a"; mp_Path := "" |}]))
    by (repeat constructor; simpl; tauto).
  split; [exact H|]. apply manual_ports_distinct. exact H.
Defined.

Definition valid_range (r : ScanRange) : Prop :=
  (1 <= sr_Start r /\ sr_Start r <= sr_End r /\ sr_End r <= 65535)%Z.

Lemma DefaultScanRanges_valid : Forall valid_range DefaultScanRanges.
Proof. unfold DefaultScanRanges, valid_range. repeat constructor; simpl; lia. Qed.

Lemma Forall_filter_keep {A : Type} (P : A -> Prop) (q : A -> bool) (l : list A) :
  Forall P l -> Forall P (List.filter q l).
Proof.
  rewrite !List.Forall_forall. intros H x Hx. apply filter_In in Hx as [Hx _]. auto.
Qed.

(** X9.  Every effective scan range satisfies 1 <= start <= end <= 65535
    as long as the configured ones do (the defaults do): a POST to
    /api/scan-ranges, whatever its body and whether or not saving works,
    and [RemoveScanRange] keep it so. *)
Theorem scan_ranges_valid (save_ok : bool) (c : Config)
    (req : option ScanRangeRequest) (sr : ScanRange) :
  Forall valid_range (ScanRanges c) ->
  Forall valid_range (ScanRanges (snd (post_scan_ranges save_ok c req))) /\
  Forall valid_range (ScanRanges (RemoveScanRange c sr)).
Proof.
  intros H. split.
  - unfold post_scan_ranges. destruct req as [rq|]; [|exact H].
    destruct (Z.ltb (srr_Start rq) 1 || Z.ltb 65535 (srr_End rq)
              || Z.ltb (srr_End rq) (srr_Start rq)) eqn:B; [exact H|].
    apply orb_false_iff in B as [B B3]. apply orb_false_iff in B as [B1 B2].
    apply Z.ltb_ge in B1, B2, B3.
    unfold AddScanRange. rewrite ScanRanges_eff.
    destruct (existsb _ (ScanRanges c)); simpl; unfold ScanRanges at 1; simpl;
      destruct (ScanRanges c) as [|x l] eqn:S;
      try (exfalso; exact (ScanRanges_nonempty c S)); [exact H|].
    change (Forall valid_range ((x :: l) ++ [{| sr_Start := srr_Start rq; sr_End := srr_End rq |}])%list).
    apply Forall_app. split; [exact H|]. constructor; [|constructor].
    unfold valid_range; simpl; lia.
  - destruct (RemoveScanRange_eff c sr) as [E _]. rewrite E.
    destruct (List.filter (fun e => negb (sr_eqb e sr)) (ScanRanges c)) eqn:F.
    + exact DefaultScanRanges_valid.
    + rewrite <- F. now apply Forall_filter_keep.
Qed.

Lemma scan_ranges_valid_witness :
  let c := {| cfg_Mappings := []; cfg_ScanIntervalSec := 10;
              cfg_ScanRanges := []; cfg_ManualPorts := [] |} in
  let req := Some {| srr_Start := 0; srr_End := 70000 |} in
  let sr := {| sr_Start := 3000; sr_End := 3999 |} in
  Forall valid_range (ScanRanges c) /\
  Forall valid_range (ScanRanges (snd (post_scan_ranges true c req))) /\
  Forall valid_range (ScanRanges (RemoveScanRange c sr)).
Proof.
  cbv zeta. split; [exact DefaultScanRanges_valid|].
  apply scan_ranges_valid. exact DefaultScanRanges_valid.
Defined.

(** X10.  Every manual port lies in 1..65535 as long as it did before: a
    POST to /api/ports, whatever its body and whether or not saving
    works, and [RemoveManualPort] keep it so. *)
Theorem manual_ports_valid (save_ok : bool) (c : Config)
    (req : option PortRequest) (p : Z) :
  Forall (fun mp => (1 <= mp_Port mp <= 65535)%Z) (ManualPorts c) ->
  Forall (fun mp => (1 <= mp_Port mp <= 65535)%Z)
         (ManualPorts (snd (post_ports save_ok c req))) /\
  Forall (fun mp => (1 <= mp_Port mp <= 65535)%Z)
         (ManualPorts (RemoveManualPort c p)).
Proof.
  intros H. split.
  - unfold post_ports. destruct req as [rq|]; [|exact H].
    destruct (Z.ltb (pr_Port rq) 1 || Z.ltb 65535 (pr_Port rq)) eqn:B; [exact H|].
    apply orb_false_iff in B as [B1 B2]. apply Z.ltb_ge in B1, B2.
    simpl. unfold ManualPorts, AddManualPort, set_ManualPorts; simpl.
    apply Forall_app. split; [now apply Forall_filter_keep|].
    constructor; [simpl; lia|constructor].
  - now apply Forall_filter_keep.
Qed.

Lemma manual_ports_valid_witness :
  let c := {| cfg_Mappings := []; cfg_ScanIntervalSec := 10; cfg_ScanRanges := [];
              cfg_ManualPorts := [{| mp_Port := 9000; mp_Name := "svc"; mp_Path := "" |};
                                  {| mp_Port := 8080; mp_Name := "old"; mp_Path := "" |}] |} in
  Forall (fun mp => (1 <= mp_Port mp <= 65535)%Z) (ManualPorts c) /\
  Forall (fun mp => (1 <= mp_Port mp <= 65535)%Z)
         (ManualPorts (snd (post_ports true c
            (Some {| pr_Port := 8080; pr_Name := "api"; pr_Path := "" |})))) /\
  Forall (fun mp => (1 <= mp_Port mp <= 65535)%Z) (ManualPorts (RemoveManualPort c 8080)).
Proof.
  cbv zeta. assert (H : Forall (fun mp => (1 <= mp_Port mp <= 65535)%Z)
    (ManualPorts {| cfg_Mappings := []; cfg_ScanIntervalSec := 10; cfg_ScanRanges := [];
                    cfg_ManualPorts := [{| mp_Port := 9000; mp_Name := "svc"; mp_Path := "" |};
                                        {| mp_Port := 8080; mp_Name := "old"; mp_Path := "" |}] |}))
    by (repeat constructor; simpl; lia).
  split; [exact H|]. apply manual_ports_valid. exact H.
Defined.

Lemma filter_system_kept (l : list DomainMapping) (d : string) :
  existsb (fun m => String.eqb (dm_Domain m) d && dm_System m) l = false ->
  List.filter dm_System (List.filter (fun e => negb (String.eqb (dm_Domain e) d)) l) =
  List.filter dm_System l.
Proof.
  induction l as [|e l IH]; simpl; auto.
  intros H. apply orb_false_iff in H as [He Hl].
  destruct (String.eqb (dm_Domain e) d) eqn:E; simpl.
  - simpl in He. rewrite He. now apply IH.
  - destruct (dm_System e); rewrite IH; auto.
Qed.

(** X11.  DELETE /api/mappings never removes a system mapping: the list
    of system mappings is the same afterwards, whatever the domain and
    whether or not saving works.  A 400 or 403 answer leaves the mappings
    unchanged; after a 204 answer the domain no longer resolves. *)
Theorem delete_mappings_keeps_system (save_ok : bool) (c : Config) (d : string) :
  let '(code, c') := delete_mappings save_ok c d in
  List.filter dm_System (cfg_Mappings c') = List.filter dm_System (cfg_Mappings c) /\
  ((code = 400 \/ code = 403)%Z -> c' = c) /\
  (code = 204%Z -> Proxy.LookupPort (cfg_Mappings c') d = 0%Z).
Proof.
  unfold delete_mappings.
  destruct (String.eqb d ""); [repeat split; auto; discriminate|].
  destruct (existsb _ (cfg_Mappings c)) eqn:Ex; [repeat split; auto; discriminate|].
  split; [|split].
  - simpl. now apply filter_system_kept.
  - destruct save_ok; intros [H|H]; discriminate.
  - intros _. apply LookupPort_removed.
Qed.

End StoreExtra.

Module ScanExtra.
Import Scan.



Lemma limit_bytes_app (n : N) (b x : list ascii) :
  (N.to_nat n <= List.length b)%nat -> limit_bytes n (b ++ x) = limit_bytes n b.
Proof.
  revert n. induction b as [|c b IH]; intros n H; simpl in *.
  - assert (n = 0%N) as -> by lia. destruct x; reflexivity.
  - destruct (N.eqb_spec n 0); [reflexivity|]. f_equal. apply IH. lia.
Qed.

(** X13.  [probeHTTP] reads at most 64 KiB of the body: bytes after the
    first 65536 never change the service name or title it records. *)
Theorem probeHTTP_reads_64KiB (b x : list ascii) (err : bool) (server : string)
    (dp : DiscoveredPort) :
  (65536 <= N.of_nat (List.length b))%N ->
  probeHTTP (Some {| resp_Body := b ++ x; resp_BodyErr := err; resp_Server := server |}) dp =
  probeHTTP (Some {| resp_Body := b; resp_BodyErr := err; resp_Server := server |}) dp.
Proof.
  intros H. unfold probeHTTP; simpl. destruct err; [reflexivity|].
  rewrite limit_bytes_app; [reflexivity|]. lia.
Qed.

Lemma probeHTTP_reads_64KiB_witness :
  (65536 <= N.of_nat (List.length (repeat "a"%char (N.to_nat 65536))))%N /\
  probeHTTP (Some {| resp_Body := repeat "a"%char (N.to_nat 65536) ++ byte_list "<title>x</title>";
                     resp_BodyErr := false; resp_Server := "" |})
    {| dp_Port := 3000; dp_Protocol := "tcp"; dp_ServiceName := ""; dp_Title := "";
       dp_Healthy := true; dp_LastSeen := 0; dp_Source := "scan"; dp_ExePath := "" |} =
  probeHTTP (Some {| resp_Body := repeat "a"%char (N.to_nat 65536); resp_BodyErr := false;
                     resp_Server := "" |})
    {| dp_Port := 3000; dp_Protocol := "tcp"; dp_ServiceName := ""; dp_Title := "";
       dp_Healthy := true; dp_LastSeen := 0; dp_Source := "scan"; dp_ExePath := "" |}.
Proof.
  assert (H : (65536 <= N.of_nat (List.length (repeat "a"%char (N.to_nat 65536))))%N)
    by (rewrite repeat_length, Nnat.N2Nat.id; lia).
  split; [exact H|]. apply probeHTTP_reads_64KiB. exact H.
Defined.

Lemma take_until_spec (stop : ascii) (s : list ascii) :
  let '(a, r) := take_until stop s in
  s = (a ++ r)%list /\ ~ In stop a /\ (match r with [] => True | c :: _ => c = stop end).
Proof.
  induction s as [|c s IH]; simpl; [repeat split; auto|].
  destruct (Ascii.eqb_spec c stop) as [E|E].
  - simpl. subst c. repeat split; auto.
  - destruct (take_until stop s) as [a r]. destruct IH as (Hs & Ha & Hr).
    simpl. repeat split; auto.
    + now rewrite Hs.
    + intros [H|H]; [congruence|contradiction].
Qed.

Lemma prefix_fold_app (p s r : list ascii) :
  prefix_fold p s = Some r -> exists q, s = (q ++ r)%list /\ List.length q = List.length p.
Proof.
  revert s. induction p as [|c p IH]; intros s H; simpl in H.
  - injection H as <-. now exists [].
  - destruct s as [|d s]; [discriminate|].
    destruct (Ascii.eqb _ _); [|discriminate].
    destruct (IH s H) as [q [-> Hq]]. exists (d :: q). simpl. split; [reflexivity|lia].
Qed.

Lemma skip_until_app (stop : ascii) (s r : list ascii) :
  skip_until stop s = Some r -> exists q, s = (q ++ stop :: r)%list.
Proof.
  induction s as [|c s IH]; simpl; [discriminate|].
  destruct (Ascii.eqb_spec c stop) as [->|E].
  - intros H. injection H as <-. now exists [].
  - intros H. destruct (IH H) as [q ->]. now exists (c :: q).
Qed.

(** X14.  A title taken from the body by the pattern
    [(?i)<title[^>]*>([^<]+)</title>] is a non-empty run of bytes
    without '<' that occurs in the body right after a '>' and right
    before a case-insensitive "</title>". *)
Theorem find_title_sound (s t : list ascii) :
  find_title s = Some t ->
  t <> [] /\ ~ In "<"%char t /\
  exists pre post, s = (pre ++ ">"%char :: t ++ post)%list /\
                   prefix_fold close_tag post <> None.
Proof.
  induction s as [|c s IH]; intros H.
  - simpl in H. unfold title_at in H. simpl in H. discriminate.
  - simpl in H. destruct (title_at (c :: s)) as [t'|] eqn:T.
    + injection H as <-. unfold title_at in T.
      destruct (prefix_fold open_tag (c :: s)) as [r|] eqn:P; [|discriminate].
      destruct (skip_until ">" r) as [r'|] eqn:K; [|discriminate].
      pose proof (take_until_spec "<" r') as TU.
      destruct (take_until "<" r') as [content rest].
      destruct TU as (Hr' & Hc & _).
      destruct content as [|a content]; [discriminate|].
      destruct (prefix_fold close_tag rest) eqn:C; [|discriminate].
      injection T as <-.
      split; [discriminate|]. split; [exact Hc|].
      destruct (prefix_fold_app _ _ _ P) as [q [Hq _]].
      destruct (skip_until_app _ _ _ K) as [q' Hq'].
      exists (q ++ q')%list, rest. split.
      * rewrite Hq, Hq', Hr'. now rewrite <- !app_assoc.
      * rewrite C. discriminate.
    + destruct (IH H) as (Hne & Hlt & pre & post & Hs & Hp).
      split; [exact Hne|]. split; [exact Hlt|].
      exists (c :: pre), post. split; [now rewrite Hs|exact Hp].
Qed.

Lemma find_title_sound_witness :
  find_title (byte_list "<TITLE lang=en>Hi</Title>") = Some (byte_list "Hi") /\
  (byte_list "Hi" <> [] /\ ~ In "<"%char (byte_list "Hi") /\
   exists pre post, byte_list "<TITLE lang=en>Hi</Title>" =
                    (pre ++ ">"%char :: byte_list "Hi" ++ post)%list /\
                    prefix_fold close_tag post <> None).
Proof.
  split; [reflexivity|]. apply find_title_sound. reflexivity.
Defined.

Lemma probeHTTP_status (r : option HttpResponse) (d : DiscoveredPort) :
  dp_Port (probeHTTP r d) = dp_Port d /\
  dp_Protocol (probeHTTP r d) = dp_Protocol d /\
  dp_LastSeen (probeHTTP r d) = dp_LastSeen d /\
  dp_Healthy (probeHTTP r d) = dp_Healthy d /\
  dp_ServiceName (probeHTTP r d) = match r with Some _ => "http" | None => "tcp" end.
Proof.
  unfold probeHTTP. destruct r as [rsp|]; [destruct (resp_BodyErr rsp)|];
    repeat split.
Qed.

(** X15.  Every snapshot entry records the cycle's liveness check and the
    probe's outcome: its protocol is "tcp", its time is the cycle's, it
    is healthy exactly when its port answered the connect, and its
    service name is "http" when the GET answered, "tcp" when it did not,
    and "" for a closed (never probed) manual port. *)
Theorem scan_entry_health (isOpen : Z -> bool) (httpGet : Z -> option HttpResponse)
    (now : Z) (c : Config) :
  Forall (fun d =>
    dp_Protocol d = "tcp" /\ dp_LastSeen d = now /\
    dp_Healthy d = isOpen (dp_Port d) /\
    dp_ServiceName d =
      (if dp_Healthy d
       then match httpGet (dp_Port d) with Some _ => "http" | None => "tcp" end
       else ""))
    (scan isOpen httpGet now c).
Proof.
  apply List.Forall_forall. intros d Hd.
  apply ScanFacts.in_scan in Hd as [(r & p & _ & Hp & ->)|(mp & _ & _ & ->)].
  - apply filter_In in Hp as [_ Ho]. unfold scan_entry.
    match goal with |- context [probeHTTP ?r ?d0] =>
      destruct (probeHTTP_status r d0) as (P & Pr & L & H & S) end.
    rewrite P, Pr, L, H, S. simpl. rewrite Ho. repeat split.
  - unfold manual_entry. cbv zeta.
    set (d0 := {| dp_Port := mp_Port mp; dp_Protocol := "tcp"; dp_ServiceName := "";
                  dp_Title := ""; dp_Healthy := isOpen (mp_Port mp); dp_LastSeen := now;
                  dp_Source := "manual"; dp_ExePath := "" |}).
    set (d1 := if negb (String.eqb (mp_Name mp) "") then _ else d0).
    assert (D1 : dp_Port d1 = mp_Port mp /\ dp_Protocol d1 = "tcp" /\
                 dp_LastSeen d1 = now /\ dp_Healthy d1 = isOpen (mp_Port mp) /\
                 dp_ServiceName d1 = "").
    { unfold d1. destruct (negb _); repeat split. }
    destruct D1 as (P1 & Pr1 & L1 & H1 & S1).
    rewrite H1. destruct (isOpen (mp_Port mp)) eqn:Ho.
    + destruct (probeHTTP_status (httpGet (mp_Port mp)) d1) as (P & Pr & L & H & S).
      destruct (String.eqb (dp_Title (probeHTTP (httpGet (mp_Port mp)) d1)) "" && _);
        simpl; rewrite P, Pr, L, H, S, P1, Pr1, L1, H1, Ho; repeat split.
    + rewrite P1, Pr1, L1, H1, S1, Ho. repeat split.
Qed.

End ScanExtra.

Module HubExtra.
Import HubRun.

(** Every registered client has an open [send] channel. *)
Definition members_open (h : Hub) : Prop :=
  forall c, c ∈ clients h -> exists ch, sends h !! c = Some ch /\ ch_closed ch = false.

Lemma broadcast_step_ok (msg : string) (h : Hub) :
  members_open h ->
  exists h', broadcast msg h = Some h' /\ members_open h' /\
    (forall k, sends h !! k = None -> sends h' !! k = None).
Proof.
  intros Hopen. unfold broadcast.
  destruct (HubFacts.broadcast_loop_spec msg (elements (clients h)) h (NoDup_elements _))
    as (h' & Hrun & Hin & Hout).
  { intros c Hc. apply Hopen. now apply elem_of_elements in Hc. }
  exists h'. split; [exact Hrun|]. split.
  - intros c Hc. destruct (decide (c ∈ clients h)) as [Hm|Hm].
    + destruct (Hopen c Hm) as [ch [Hl _]].
      apply elem_of_elements in Hm as Hm'. specialize (Hin c ch Hm' Hl).
      destruct (Nat.ltb _ _); destruct Hin as [E M].
      * exists (mkChan (ch_buf ch ++ [msg]) false). split; [exact E|reflexivity].
      * contradiction.
    + exfalso. apply Hm. apply (proj2 (Hout c (fun H => Hm (proj1 (elem_of_elements _ _) H)))).
      exact Hc.
  - intros k Hk. assert (Hm : k ∉ clients h).
    { intros Hm. destruct (Hopen k Hm) as [ch [Hl _]]. congruence. }
    destruct (Hout k (fun H => Hm (proj1 (elem_of_elements _ _) H))) as [E _].
    now rewrite E.
Qed.

Lemma hub_step_ok (e : HubEvent) (h : Hub) :
  members_open h ->
  (forall c, e = Connect c -> sends h !! c = None) ->
  exists h', hub_step e h = Some h' /\ members_open h' /\
    (forall k, sends h !! k = None -> e <> Connect k -> sends h' !! k = None).
Proof.
  intros Hopen Hfresh. destruct e as [c|c|msg|c]; simpl.
  - eexists. split; [reflexivity|]. split.
    + intros k Hk. unfold register, new_client in *; simpl in *.
      apply elem_of_union in Hk as [Hk|Hk].
      * destruct (decide (k = c)) as [->|Ne].
        -- exists (mkChan [] false). now rewrite lookup_insert_eq.
        -- rewrite lookup_insert_ne by congruence. now apply Hopen.
      * apply elem_of_singleton in Hk as ->. exists (mkChan [] false).
        now rewrite lookup_insert_eq.
    + intros k Hk Ne. simpl. rewrite lookup_insert_ne by congruence. exact Hk.
  - unfold unregister. destruct (decide (c ∈ clients h)) as [Hm|Hm].
    + destruct (Hopen c Hm) as [ch [Hl Hc]]. rewrite Hl, Hc.
      eexists. split; [reflexivity|]. split.
      * intros k Hk. simpl in Hk. apply elem_of_difference in Hk as [Hk Hk'].
        apply not_elem_of_singleton in Hk'. simpl.
        rewrite lookup_insert_ne by congruence. now apply Hopen.
      * intros k Hk _. simpl. rewrite lookup_insert_ne by congruence. exact Hk.
    + eexists. split; [reflexivity|]. split; [exact Hopen|]. auto.
  - destruct (broadcast_step_ok msg h Hopen) as (h' & R & O & K).
    exists h'. split; [exact R|]. split; [exact O|]. auto.
  - eexists. split; [reflexivity|]. unfold receive.
    destruct (sends h !! c) as [ch|] eqn:Hl; [|split; [exact Hopen|auto]].
    destruct (ch_buf ch) as [|m rest]; [split; [exact Hopen|auto]|].
    split.
    + intros k Hk. simpl in Hk |- *. destruct (decide (k = c)) as [->|Ne].
      * rewrite lookup_insert_eq. destruct (Hopen c Hk) as [ch' [Hl' Hc']].
        rewrite Hl in Hl'. injection Hl' as <-. eexists; split; [reflexivity|exact Hc'].
      * rewrite lookup_insert_ne by congruence. now apply Hopen.
    + intros k Hk _. simpl. rewrite lookup_insert_ne by congruence. exact Hk.
Qed.

Lemma hub_run_ok (es : list HubEvent) (h : Hub) :
  members_open h -> List.NoDup (connected es) ->
  (forall c, In c (connected es) -> sends h !! c = None) ->
  exists h', hub_run es h = Some h' /\ members_open h'.
Proof.
  revert h. induction es as [|e es IH]; intros h Hopen Hnd Hfresh; simpl.
  - exists h. auto.
  - destruct (hub_step_ok e h Hopen) as (h1 & S & O & K).
    { intros c ->. apply Hfresh. simpl. now left. }
    rewrite S. apply IH; [exact O| |].
    + destruct e; simpl in Hnd; try exact Hnd. now inversion Hnd.
    + intros c Hc. apply K.
      * apply Hfresh. destruct e; simpl; auto.
      * intros ->. simpl in Hnd. inversion Hnd. contradiction.
Qed.

(** X16.  Starting from [NewHub], the Hub's loop never panics (no send on
    or close of a closed channel) for any sequence of connects,
    disconnects (also of clients the hub already dropped), broadcasts
    and deliveries in which every connecting client is new; and every
    client it still lists has an open channel. *)
Theorem hub_run_never_panics (es : list HubEvent) :
  List.NoDup (connected es) ->
  exists h', hub_run es NewHub = Some h' /\ members_open h'.
Proof.
  intros Hnd. apply hub_run_ok; [|exact Hnd|].
  - intros c Hc. simpl in Hc. apply elem_of_empty in Hc. contradiction.
  - intros c _. reflexivity.
Qed.

(** A client that is dropped by a broadcast and then disconnects. *)
Lemma hub_run_never_panics_witness :
  let es := [Connect 1; Connect 2; Broadcast "a"; Receive 1; Disconnect 2;
             Disconnect 2; Broadcast "b"] in
  List.NoDup (connected es) /\
  exists h', hub_run es NewHub = Some h' /\ members_open h'.
Proof.
  cbv zeta. assert (H : List.NoDup (connected
    [Connect 1; Connect 2; Broadcast "a"; Receive 1; Disconnect 2; Disconnect 2; Broadcast "b"])).
  { simpl. repeat constructor; simpl; intuition lia. }
  split; [exact H|]. apply hub_run_never_panics. exact H.
Defined.

End HubExtra.

Module ResolverExtra.

Lemma hex_val_range (c : ascii) (v : Z) : hex_val c = Some v -> (0 <= v < 16)%Z.
Proof.
  unfold hex_val.
  destruct ((48 <=? nat_of_ascii c) && (nat_of_ascii c <=? 57))%nat eqn:A.
  { intros H. injection H as <-. apply andb_true_iff in A as [A1 A2].
    apply Nat.leb_le in A1, A2. lia. }
  destruct ((97 <=? nat_of_ascii c) && (nat_of_ascii c <=? 102))%nat eqn:B.
  { intros H. injection H as <-. apply andb_true_iff in B as [B1 B2].
    apply Nat.leb_le in B1, B2. lia. }
  destruct ((65 <=? nat_of_ascii c) && (nat_of_ascii c <=? 70))%nat eqn:C;
    [|discriminate].
  intros H. injection H as <-. apply andb_true_iff in C as [C1 C2].
  apply Nat.leb_le in C1, C2. lia.
Qed.

Lemma hex_decode_range (s : list ascii) (l : list Z) :
  hex_decode s = Some l -> Forall (fun b => (0 <= b < 256)%Z) l.
Proof.
  revert l. induction s as [[|a [|b s]] IH] using (induction_ltof1 _ (@List.length _));
    intros l H; simpl in H.
  - injection H as <-. constructor.
  - discriminate.
  - destruct (hex_val a) as [x|] eqn:Ha; [|discriminate].
    destruct (hex_val b) as [y|] eqn:Hb; [|discriminate].
    destruct (hex_decode s) as [r|] eqn:Hs; [|discriminate].
    injection H as <-. apply hex_val_range in Ha, Hb. constructor; [lia|].
    apply (IH s); [unfold ltof; simpl; lia|exact Hs].
Qed.

Lemma lor_shift8 (b0 b1 : Z) : (0 <= b0)%Z -> (0 <= b1 < 256)%Z ->
  Z.lor (Z.shiftl b0 8) b1 = (b0 * 256 + b1)%Z.
Proof.
  intros H0 H1.
  assert (L : Z.land (Z.shiftl b0 8) b1 = 0%Z).
  { apply Z.bits_inj'. intros n Hn. rewrite Z.land_spec, Z.bits_0.
    destruct (Z.lt_ge_cases n 8) as [Lt|Ge].
    - rewrite Z.shiftl_spec_low by lia. reflexivity.
    - rewrite (Z.bits_above_log2 b1 n); [apply andb_false_r|lia|].
      destruct (Z.eq_dec b1 0%Z) as [->|Nz]; [simpl; lia|].
      assert (Z.log2 b1 < 8)%Z by (apply Z.log2_lt_pow2; lia). lia. }
  rewrite <- Z.lxor_lor by exact L. rewrite <- Z.add_nocarry_lxor by exact L.
  rewrite Z.shiftl_mul_pow2 by lia. reflexivity.
Qed.

Lemma row_inode_sound (line : string) (port : Z) (i : string) :
  ResolverUnix.row_inode line port = Some i ->
  let fields := Fields line in
  (10 <= List.length fields)%nat /\ nth 3 fields "" = "0A" /\ nth 9 fields "" = i /\
  exists addr hx b0 b1, SplitN2 (nth 1 fields "") ":" = [addr; hx] /\
    hex_decode (byte_list hx) = Some [b0; b1] /\ (b0 * 256 + b1 = port)%Z.
Proof.
  unfold ResolverUnix.row_inode. cbv zeta.
  destruct (List.length (Fields line) <? 10)%nat eqn:L; [discriminate|].
  destruct (String.eqb (nth 3 (Fields line) "") "0A") eqn:A; simpl; [|discriminate].
  destruct (SplitN2 (nth 1 (Fields line) "") ":") as [|addr [|hx [|? ?]]] eqn:S;
    try discriminate.
  destruct (hex_decode (byte_list hx)) as [[|b0 [|b1 [|? ?]]]|] eqn:D; try discriminate.
  destruct (Z.eqb_spec (Z.lor (Z.shiftl b0 8) b1) port) as [E|]; [|discriminate].
  intros H. injection H as <-.
  apply Nat.ltb_ge in L. apply String.eqb_eq in A.
  split; [exact L|]. split; [exact A|]. split; [reflexivity|].
  exists addr, hx, b0, b1. split; [reflexivity|]. split; [exact D|].
  apply hex_decode_range in D. inversion D as [|? ? R0 D1]; subst.
  inversion D1 as [|? ? R1 _]; subst.
  rewrite <- lor_shift8 by lia. reflexivity.
Qed.

Lemma first_row_sound (lines : list string) (port : Z) :
  ResolverUnix.first_row lines port <> "" ->
  exists line, In line lines /\
    ResolverUnix.row_inode line port = Some (ResolverUnix.first_row lines port).
Proof.
  induction lines as [|l ls IH]; simpl; [congruence|].
  destruct (ResolverUnix.row_inode l port) eqn:R.
  - intros _. exists l. auto.
  - intros H. destruct (IH H) as [line [Hin Hr]]. exists line. auto.
Qed.

(** X17.  A socket inode found for a port comes from a LISTEN row of
    /proc/net/tcp or /proc/net/tcp6 (not their header line) with at least
    ten fields, state "0A", the inode in the tenth field, and a local
    address whose hex port decodes to two bytes b0, b1 with
    b0 * 256 + b1 equal to the port. *)
Theorem findSocketInode_sound (fs : ProcFS) (port : Z) :
  ResolverUnix.findSocketInode fs port <> "" ->
  exists path data line,
    (path = "/proc/net/tcp" \/ path = "/proc/net/tcp6") /\
    fs_ReadFile fs path = Some data /\ In line (tl (Split data "010"%char)) /\
    let fields := Fields line in
    (10 <= List.length fields)%nat /\ nth 3 fields "" = "0A" /\
    nth 9 fields "" = ResolverUnix.findSocketInode fs port /\
    exists addr hx b0 b1, SplitN2 (nth 1 fields "") ":" = [addr; hx] /\
      hex_decode (byte_list hx) = Some [b0; b1] /\ (b0 * 256 + b1 = port)%Z.
Proof.
  assert (F : forall path, ResolverUnix.findInodeInFile fs path port <> "" ->
    exists data line, fs_ReadFile fs path = Some data /\
      In line (tl (Split data "010"%char)) /\
      ResolverUnix.row_inode line port = Some (ResolverUnix.findInodeInFile fs path port)).
  { intros path. unfold ResolverUnix.findInodeInFile.
    destruct (fs_ReadFile fs path) as [data|]; [|congruence].
    intros H. destruct (first_row_sound _ _ H) as [line [Hin Hr]].
    exists data, line. auto. }
  unfold ResolverUnix.findSocketInode.
  destruct (String.eqb_spec (ResolverUnix.findInodeInFile fs "/proc/net/tcp" port) "")
    as [E|E]; simpl; intros H.
  - destruct (F _ H) as (data & line & Hd & Hin & Hr).
    exists "/proc/net/tcp6", data, line. split; [now right|]. split; [exact Hd|].
    split; [exact Hin|]. exact (row_inode_sound _ _ _ Hr).
  - destruct (F _ E) as (data & line & Hd & Hin & Hr).
    exists "/proc/net/tcp", data, line. split; [now left|]. split; [exact Hd|].
    split; [exact Hin|]. exact (row_inode_sound _ _ _ Hr).
Qed.

Lemma findSocketInode_sound_witness :
  ResolverUnix.findSocketInode ResolverFacts.node_fs 3000 = "12345" /\
  exists path data line,
    (path = "/proc/net/tcp" \/ path = "/proc/net/tcp6") /\
    fs_ReadFile ResolverFacts.node_fs path = Some data /\
    In line (tl (Split data "010"%char)) /\
    let fields := Fields line in
    (10 <= List.length fields)%nat /\ nth 3 fields "" = "0A" /\
    nth 9 fields "" = ResolverUnix.findSocketInode ResolverFacts.node_fs 3000 /\
    exists addr hx b0 b1, SplitN2 (nth 1 fields "") ":" = [addr; hx] /\
      hex_decode (byte_list hx) = Some [b0; b1] /\ (b0 * 256 + b1 = 3000)%Z.
Proof.
  assert (E : ResolverUnix.findSocketInode ResolverFacts.node_fs 3000 = "12345")
    by (vm_compute; reflexivity).
  split; [exact E|]. apply findSocketInode_sound. rewrite E. discriminate.
Defined.

Lemma first_pid_sound (lines : list string) (port : Z) (needle : string) :
  ResolverWindows.first_pid lines port needle <> 0%Z ->
  exists line, In line lines /\
    ResolverWindows.line_pid line port needle =
      Some (ResolverWindows.first_pid lines port needle).
Proof.
  induction lines as [|l ls IH]; simpl; [congruence|].
  destruct (ResolverWindows.line_pid l port needle) eqn:R.
  - intros _. exists l. auto.
  - intros H. destruct (IH H) as [line [Hin Hr]]. exists line. auto.
Qed.

(** X18.  A non-zero PID found by [findPIDByPort] is the last field of a
    line of the netstat output that, trimmed, contains "LISTENING" and
    ":<port> ", has at least five fields, and whose second field (the
    local address) ends in ":<port>" exactly, so a line listening on a
    longer port such as 30000, or matching only in the remote address,
    is never taken for [port] = 3000. *)
Theorem findPIDByPort_sound (netstat : option string) (port : Z) :
  ResolverWindows.findPIDByPort netstat port <> 0%Z ->
  exists out line, netstat = Some out /\ In line (Split out "010"%char) /\
    let t := TrimSpace line in
    Contains t "LISTENING" = true /\ Contains t (ResolverWindows.needle_of port) = true /\
    let fields := Fields t in
    (5 <= List.length fields)%nat /\
    let parts := Split (nth 1 fields "") ":" in
    (2 <= List.length parts)%nat /\ Atoi (List.last parts "") = Some port /\
    Atoi (List.last fields "") = Some (ResolverWindows.findPIDByPort netstat port).
Proof.
  unfold ResolverWindows.findPIDByPort. destruct netstat as [out|]; [|congruence].
  intros H. destruct (first_pid_sound _ _ _ H) as [line [Hin Hl]].
  exists out, line. split; [reflexivity|]. split; [exact Hin|].
  revert Hl. generalize (ResolverWindows.first_pid (Split out "010"%char) port
                           (ResolverWindows.needle_of port)) as pid.
  intros pid. unfold ResolverWindows.line_pid. cbv zeta.
  destruct (Contains (TrimSpace line) "LISTENING") eqn:C1; simpl; [|discriminate].
  destruct (Contains (TrimSpace line) (ResolverWindows.needle_of port)) eqn:C2;
    simpl; [|discriminate].
  destruct (List.length (Fields (TrimSpace line)) <? 5)%nat eqn:L1; [discriminate|].
  destruct (List.length (Split (nth 1 (Fields (TrimSpace line)) "") ":") <? 2)%nat eqn:L2;
    [discriminate|].
  destruct (Atoi (List.last (Split (nth 1 (Fields (TrimSpace line)) "") ":") "")) as [p|] eqn:A;
    [|discriminate].
  destruct (Z.eqb_spec p port) as [->|]; [|discriminate].
  intros Hp. apply Nat.ltb_ge in L1, L2. repeat split; auto.
Qed.

Lemma findPIDByPort_sound_witness :
  let out := "  TCP    0.0.0.0:30000          0.0.0.0:0              LISTENING       4" ++
             String "010" "" ++
             "  TCP    0.0.0.0:3000           0.0.0.0:0              LISTENING       7788" in
  ResolverWindows.findPIDByPort (Some out) 3000 = 7788%Z /\
  exists out' line, Some out = Some out' /\ In line (Split out' "010"%char) /\
    let t := TrimSpace line in
    Contains t "LISTENING" = true /\ Contains t (ResolverWindows.needle_of 3000) = true /\
    let fields := Fields t in
    (5 <= List.length fields)%nat /\
    let parts := Split (nth 1 fields "") ":" in
    (2 <= List.length parts)%nat /\ Atoi (List.last parts "") = Some 3000%Z /\
    Atoi (List.last fields "") = Some (ResolverWindows.findPIDByPort (Some out) 3000).
Proof.
  cbv zeta.
  assert (E : ResolverWindows.findPIDByPort
    (Some ("  TCP    0.0.0.0:30000          0.0.0.0:0              LISTENING       4" ++
           String "010" "" ++
           "  TCP    0.0.0.0:3000           0.0.0.0:0              LISTENING       7788"))
    3000 = 7788%Z) by (vm_compute; reflexivity).
  split; [exact E|]. apply findPIDByPort_sound. rewrite E. discriminate.
Defined.

End ResolverExtra.

Module ReleaseExtra.
Import Release.

(** [remote] is later than [local] in the order of [isNewer]. *)
Definition lex_lt (l r : Z * Z * Z) : Prop :=
  let '(l1, l2, l3) := l in
  let '(r1, r2, r3) := r in
  (r1 > l1 \/ (r1 = l1 /\ (r2 > l2 \/ (r2 = l2 /\ r3 > l3))))%Z.

Lemma isNewer_iff (l r : string) :
  isNewer l r = true <->
  exists vl vr, parse l = Some vl /\ parse r = Some vr /\ lex_lt vl vr.
Proof.
  unfold isNewer.
  destruct (parse l) as [[[l1 l2] l3]|]; [|split; [discriminate|intros (? & ? & H & _); discriminate]].
  destruct (parse r) as [[[r1 r2] r3]|]; [|split; [discriminate|intros (? & ? & _ & H & _); discriminate]].
  split.
  - intros H. exists (l1, l2, l3), (r1, r2, r3). split; [reflexivity|]. split; [reflexivity|].
    simpl. destruct (Z.eqb_spec r1 l1); simpl in H.
    + destruct (Z.eqb_spec r2 l2); simpl in H.
      * apply Z.gtb_lt in H. lia.
      * apply Z.gtb_lt in H. lia.
    + apply Z.gtb_lt in H. lia.
  - intros (vl & vr & El & Er & H). injection El as <-. injection Er as <-. simpl in H.
    destruct (Z.eqb_spec r1 l1); simpl.
    + destruct (Z.eqb_spec r2 l2); simpl; apply Z.gtb_lt; lia.
    + apply Z.gtb_lt. lia.
Qed.

(** X19.  [isNewer] is a strict order on release tags: no tag is newer
    than itself, at most one of two tags is newer than the other, it is
    transitive, any two well-formed tags with different numbers are
    ordered one way, and a tag that does not parse as
    [v]MAJOR.MINOR.PATCH is never newer nor older than anything. *)
Theorem isNewer_strict_order (a b c : string) :
  isNewer a a = false /\
  (isNewer a b = true -> isNewer b a = false) /\
  (isNewer a b = true -> isNewer b c = true -> isNewer a c = true) /\
  (forall va vb, parse a = Some va -> parse b = Some vb ->
     isNewer a b = true \/ isNewer b a = true \/ va = vb) /\
  (parse a = None -> isNewer a b = false /\ isNewer b a = false).
Proof.
  split; [|split; [|split; [|split]]].
  - apply Bool.not_true_iff_false. rewrite isNewer_iff.
    intros ([[x y] z] & vr & E1 & E2 & H). rewrite E1 in E2. injection E2 as <-.
    simpl in H. lia.
  - rewrite isNewer_iff. intros ([[x1 y1] z1] & [[x2 y2] z2] & E1 & E2 & H).
    apply Bool.not_true_iff_false. rewrite isNewer_iff.
    intros ([[x3 y3] z3] & [[x4 y4] z4] & E3 & E4 & H').
    rewrite E2 in E3. injection E3 as <- <- <-. rewrite E1 in E4. injection E4 as <- <- <-.
    simpl in H, H'. lia.
  - rewrite !isNewer_iff. intros ([[x1 y1] z1] & [[x2 y2] z2] & E1 & E2 & H)
                                ([[x3 y3] z3] & [[x4 y4] z4] & E3 & E4 & H').
    rewrite E2 in E3. injection E3 as <- <- <-.
    exists (x1, y1, z1), (x4, y4, z4). split; [exact E1|]. split; [exact E4|].
    simpl in H, H' |- *. lia.
  - intros [[x1 y1] z1] [[x2 y2] z2] E1 E2. rewrite !isNewer_iff.
    destruct (Z.eq_dec x1 x2); destruct (Z.eq_dec y1 y2); destruct (Z.eq_dec z1 z2);
      try (subst; right; right; reflexivity);
      (destruct (Z.lt_ge_cases x1 x2); destruct (Z.lt_ge_cases y1 y2);
       destruct (Z.lt_ge_cases z1 z2));
      first [ left; exists (x1, y1, z1), (x2, y2, z2); split; [exact E1|];
              split; [exact E2|]; simpl; lia
            | right; left; exists (x2, y2, z2), (x1, y1, z1); split; [exact E2|];
              split; [exact E1|]; simpl; lia ].
  - intros N. split; apply Bool.not_true_iff_false; rewrite isNewer_iff;
      intros (vl & vr & E1 & E2 & _); congruence.
Qed.

Example isNewer_tags :
  isNewer "v1.9.9" "v1.10.0" = true /\ isNewer "v1.2.3" "1.2.3" = false /\
  isNewer "1.2.3" "v1.2.3" = false /\ isNewer "v1.2.3" "v1.2.4-rc1" = false /\
  isNewer "dev" "v0.0.1" = false.
Proof. vm_compute. repeat split. Qed.

End ReleaseExtra.

Module ClientJSExtra.
Import ClientJS.

(** What the four chained replacements do to one code unit. *)
Definition enc (x : Z) : js_string :=
  if Z.eqb x 38 then js_of_string "&amp;"
  else if Z.eqb x 60 then js_of_string "&lt;"
  else if Z.eqb x 62 then js_of_string "&gt;"
  else if Z.eqb x 34 then js_of_string "&quot;"
  else [x].

Lemma replace_all_app (u : Z) (rep s t : js_string) :
  replace_all u rep (s ++ t)%list = (replace_all u rep s ++ replace_all u rep t)%list.
Proof. unfold replace_all. apply flat_map_app. Qed.

Lemma enc_chain (x : Z) :
  replace_all 34 (js_of_string "&quot;")
    (replace_all 62 (js_of_string "&gt;")
      (replace_all 60 (js_of_string "&lt;")
        (replace_all 38 (js_of_string "&amp;") [x]))) = enc x.
Proof.
  unfold enc.
  destruct (Z.eqb_spec x 38); [subst; reflexivity|].
  destruct (Z.eqb_spec x 60); [subst; reflexivity|].
  destruct (Z.eqb_spec x 62); [subst; reflexivity|].
  destruct (Z.eqb_spec x 34); [subst; reflexivity|].
  apply Z.eqb_neq in n, n0, n1, n2.
  unfold replace_all; simpl. rewrite n. simpl. rewrite n0. simpl.
  rewrite n1. simpl. rewrite n2. reflexivity.
Qed.

Lemma escapeHtml_flat_map (s : js_string) : escapeHtml s = flat_map enc s.
Proof.
  destruct s as [|x s]; [reflexivity|]. unfold escapeHtml.
  generalize (x :: s) as t. clear x s. induction t as [|x t IH]; [reflexivity|].
  change (x :: t) with ([x] ++ t)%list. rewrite !replace_all_app, enc_chain, IH.
  reflexivity.
Qed.

Lemma enc_no_special (x y : Z) :
  In y (enc x) -> y <> 60%Z /\ y <> 62%Z /\ y <> 34%Z.
Proof.
  unfold enc.
  destruct (Z.eqb_spec x 38); [intros H; vm_compute in H; intuition lia|].
  destruct (Z.eqb_spec x 60); [intros H; vm_compute in H; intuition lia|].
  destruct (Z.eqb_spec x 62); [intros H; vm_compute in H; intuition lia|].
  destruct (Z.eqb_spec x 34); [intros H; vm_compute in H; intuition lia|].
  simpl. intros [<-|[]]. lia.
Qed.

Lemma enc_cases (x : Z) :
  (enc x = [x] /\ x <> 38%Z /\ x <> 60%Z /\ x <> 62%Z /\ x <> 34%Z) \/
  (x = 38%Z /\ enc x = js_of_string "&amp;") \/
  (x = 60%Z /\ enc x = js_of_string "&lt;") \/
  (x = 62%Z /\ enc x = js_of_string "&gt;") \/
  (x = 34%Z /\ enc x = js_of_string "&quot;").
Proof.
  unfold enc.
  destruct (Z.eqb_spec x 38); [subst; right; left; split; reflexivity|].
  destruct (Z.eqb_spec x 60); [subst; right; right; left; split; reflexivity|].
  destruct (Z.eqb_spec x 62); [subst; right; right; right; left; split; reflexivity|].
  destruct (Z.eqb_spec x 34); [subst; right; right; right; right; split; reflexivity|].
  left. repeat split; assumption.
Qed.

(** Two code units whose encodings start a common output agree: the
    encodings form a prefix code. *)
Lemma enc_prefix (a b : Z) (s t : js_string) :
  (enc a ++ s)%list = (enc b ++ t)%list -> a = b /\ s = t.
Proof.
  intros H.
  destruct (enc_cases a) as [(Ea & A1 & A2 & A3 & A4)|[(-> & Ea)|[(-> & Ea)|[(-> & Ea)|(-> & Ea)]]]];
  destruct (enc_cases b) as [(Eb & B1 & B2 & B3 & B4)|[(-> & Eb)|[(-> & Eb)|[(-> & Eb)|(-> & Eb)]]]];
  rewrite ?Ea, ?Eb in H; vm_compute in H;
  try (injection H; intros; subst; split; reflexivity);
  try (injection H; intros; lia);
  try discriminate;
  try (injection H; intros; subst; lia).
Qed.

(** X20.  The output of [escapeHtml] never contains a less-than sign, a
    greater-than sign or a double quote
    (code units 60, 62, 34), so it cannot open or close a tag or end a
    double-quoted attribute value. *)
Theorem escapeHtml_no_markup (s : js_string) (y : Z) :
  In y (escapeHtml s) -> y <> 60%Z /\ y <> 62%Z /\ y <> 34%Z.
Proof.
  rewrite escapeHtml_flat_map. intros H.
  apply in_flat_map in H as (x & _ & H). exact (enc_no_special x y H).
Qed.

Lemma escapeHtml_no_markup_witness :
  In 38%Z (escapeHtml [60%Z]) /\ (38 <> 60 /\ 38 <> 62 /\ 38 <> 34)%Z.
Proof.
  assert (H : In 38%Z (escapeHtml [60%Z])) by (vm_compute; left; reflexivity).
  split; [exact H|]. exact (escapeHtml_no_markup [60%Z] 38%Z H).
Defined.

(** X21.  [escapeHtml] loses no information: two strings with the same
    escaped form are equal. *)
Theorem escapeHtml_injective (s1 s2 : js_string) :
  escapeHtml s1 = escapeHtml s2 -> s1 = s2.
Proof.
  rewrite !escapeHtml_flat_map. revert s2.
  induction s1 as [|a s1 IH]; intros [|b s2]; simpl; intros H.
  - reflexivity.
  - destruct (enc_cases b) as [(E & _)|[(_ & E)|[(_ & E)|[(_ & E)|(_ & E)]]]];
      rewrite E in H; discriminate.
  - destruct (enc_cases a) as [(E & _)|[(_ & E)|[(_ & E)|[(_ & E)|(_ & E)]]]];
      rewrite E in H; discriminate.
  - apply enc_prefix in H as [-> H]. f_equal. exact (IH s2 H).
Qed.

Lemma escapeHtml_injective_witness :
  escapeHtml (js_of_string "a<b") = escapeHtml (js_of_string "a<b") /\
  js_of_string "a<b" = js_of_string "a<b".
Proof.
  split; [reflexivity|].
  apply (escapeHtml_injective (js_of_string "a<b") (js_of_string "a<b")). reflexivity.
Defined.

End ClientJSExtra.
